(** * 8-K text corpora builder: a shallow embedding of [8K_corpus_builder.py]

    The development follows the source file top-down: the filename
    convention, the return classifier, the exhibit locator, the noise filter
    and the per-filing orchestrator.  Python's [re] module is embedded as a
    backtracking matcher over a small pattern syntax that covers every
    construct the patterns of the source use. *)

From Stdlib Require Import Bool Arith List Ascii String DecimalString QArith Lia Lqa.
From stdpp Require Import base option gmap strings.

Local Open Scope string_scope.
Local Open Scope list_scope.

(** ** Exceptions and results

    A Python call either returns or raises; the exceptions below are the
    ones the modelled functions can raise themselves. *)

Inductive exn : Type :=
| ZeroDivisionError
| IndexError
| AssertionError
| UnboundLocalError
| IOError.

Inductive result (A : Type) : Type :=
| Return (a : A)
| Raise (e : exn).

Arguments Return {A} a.
Arguments Raise {A} e.

#[global] Instance result_ret : MRet result := fun A a => Return a.

#[global] Instance result_bind : MBind result := fun A B f r =>
  match r with
  | Return a => f a
  | Raise e => Raise e
  end.

(** ** Strings

    A Python 2 [str] is a sequence of 8-bit characters: [string]. *)

Module Str.

Definition newline : ascii := "010"%char.

(** [sub in s] for strings. *)
Fixpoint contains (sub s : string) : bool :=
  String.prefix sub s ||
  match s with
  | EmptyString => false
  | String _ s' => contains sub s'
  end.

(** [sep.join(parts)]. *)
Fixpoint join (sep : string) (parts : list string) : string :=
  match parts with
  | [] => ""
  | [p] => p
  | p :: ps => p ++ sep ++ join sep ps
  end.

(** [all(f(c) for c in s)]. *)
Fixpoint forall_chars (f : ascii -> bool) (s : string) : bool :=
  match s with
  | EmptyString => true
  | String c s' => f c && forall_chars f s'
  end.

Definition code (c : ascii) : nat := nat_of_ascii c.

Definition in_range (lo hi c : ascii) : bool :=
  (code lo <=? code c)%nat && (code c <=? code hi)%nat.

Definition is_digit (c : ascii) : bool := in_range "0" "9" c.

Definition is_upper (c : ascii) : bool := in_range "A" "Z" c.

Definition is_word (c : ascii) : bool :=
  in_range "a" "z" c || is_upper c || is_digit c || Ascii.eqb c "_".

(** Space, tab, line feed, vertical tab, form feed and carriage return. *)
Definition is_space (c : ascii) : bool :=
  Ascii.eqb c " " || in_range "009" "013" c.

(** The ASCII [tolower] the matcher applies under [re.IGNORECASE]. *)
Definition lower (c : ascii) : ascii :=
  if is_upper c then ascii_of_nat (code c + 32) else c.

End Str.

(** ** Python's [re]: patterns *)

Module Re.

Record flags : Type := Flags {
  IGNORECASE : bool;
  MULTILINE : bool;
  DOTALL : bool
}.

(** Items that match exactly one character. *)
Inductive atom : Type :=
| Lit (c : ascii)                         (* a literal character *)
| Dot                                     (* [.] *)
| Digit (negated : bool)                  (* [\d], [\D] *)
| Space (negated : bool)                  (* [\s], [\S] *)
| Word (negated : bool)                   (* [\w], [\W] *)
| Range (ranges : list (ascii * ascii)).  (* [[0-9A-Z]] *)

(** Every quantifier of the source's patterns is applied to a
    one-character item, so repetition carries an [atom]. *)
Inductive regex : Type :=
| Empty
| Atom (a : atom)
| Rep (a : atom) (lo : nat) (hi : option nat)   (* greedy [a{lo,hi}] *)
| Bol                                           (* [^] *)
| Eol                                           (* [$] *)
| Cat (r1 r2 : regex)
| Alt (r1 r2 : regex)
| Group (n : nat) (r : regex).                  (* n-th capturing group *)

Record pattern : Type := Pattern {
  pat_regex : regex;
  pat_flags : flags
}.

Definition atom_matches (fl : flags) (a : atom) (c : ascii) : bool :=
  match a with
  | Lit l =>
      if IGNORECASE fl then Ascii.eqb (Str.lower c) (Str.lower l)
      else Ascii.eqb c l
  | Dot => DOTALL fl || negb (Ascii.eqb c Str.newline)
  | Digit neg => xorb neg (Str.is_digit c)
  | Space neg => xorb neg (Str.is_space c)
  | Word neg => xorb neg (Str.is_word c)
  | Range rs =>
      if IGNORECASE fl
      then existsb (fun r => Str.in_range (Str.lower (fst r)) (Str.lower (snd r))
                                          (Str.lower c)) rs
      else existsb (fun r => Str.in_range (fst r) (snd r) c) rs
  end.

(** The matcher's position: the character before the cursor ([None] at
    the real beginning of the subject), the offset of the cursor and the
    text of the groups closed so far. *)
Record mstate : Type := MState {
  prev : option ascii;
  pos : nat;
  groups : list (nat * string)
}.

Definition advance (st : mstate) (c : ascii) : mstate :=
  MState (Some c) (S (pos st)) (groups st).

Definition close_group (n : nat) (start : mstate) (subject : string)
    (st : mstate) : mstate :=
  MState (prev st) (pos st)
         ((n, String.substring 0 (pos st - pos start) subject) :: groups st).

Definition at_bol (fl : flags) (st : mstate) : bool :=
  match prev st with
  | None => true
  | Some c => MULTILINE fl && Ascii.eqb c Str.newline
  end.

Definition at_eol (fl : flags) (rest : string) : bool :=
  match rest with
  | EmptyString => true
  | String c rest' =>
      Ascii.eqb c Str.newline &&
      (MULTILINE fl || match rest' with EmptyString => true | _ => false end)
  end.

Definition cont : Type := mstate -> string -> option mstate.

(** Greedy repetition of a one-character item: take as many characters as
    allowed, then give them back one at a time until the rest of the
    pattern matches. *)
Fixpoint rep (fl : flags) (a : atom) (lo : nat) (hi : option nat)
    (st : mstate) (s : string) (k : cont) {struct s} : option mstate :=
  let stop := match lo with O => k st s | S _ => None end in
  match s with
  | EmptyString => stop
  | String c s' =>
      let more :=
        match hi with
        | Some O => false
        | _ => atom_matches fl a c
        end in
      if more then
        match rep fl a (Nat.pred lo) (option_map Nat.pred hi)
                  (advance st c) s' k with
        | Some r => Some r
        | None => stop
        end
      else stop
  end.

(** Backtracking match of [r] at the cursor, continuing with [k]. *)
Fixpoint run (fl : flags) (r : regex) (st : mstate) (s : string) (k : cont)
    {struct r} : option mstate :=
  match r with
  | Empty => k st s
  | Atom a =>
      match s with
      | String c s' => if atom_matches fl a c then k (advance st c) s' else None
      | EmptyString => None
      end
  | Rep a lo hi => rep fl a lo hi st s k
  | Bol => if at_bol fl st then k st s else None
  | Eol => if at_eol fl s then k st s else None
  | Cat r1 r2 => run fl r1 st s (fun st' s' => run fl r2 st' s' k)
  | Alt r1 r2 =>
      match run fl r1 st s k with
      | Some m => Some m
      | None => run fl r2 st s k
      end
  | Group n r1 => run fl r1 st s (fun st' s' => k (close_group n st s st') s')
  end.

Definition accept : cont := fun st _ => Some st.

(** One match attempt with the cursor after [before] (the previous
    character) on the remaining text [s]; the result's [pos] is the length
    of the match. *)
Definition match_here (p : pattern) (before : option ascii) (s : string)
    : option mstate :=
  run (pat_flags p) (pat_regex p) (MState before 0 []) s accept.

Definition match_len (p : pattern) (before : option ascii) (s : string)
    : option nat :=
  option_map pos (match_here p before s).

(** [re.match(p, s)]: a match at the beginning of [s] only. *)
Definition re_match (p : pattern) (s : string) : option mstate :=
  match_here p None s.

Definition group (m : mstate) (n : nat) : string :=
  match find (fun g => Nat.eqb (fst g) n) (groups m) with
  | Some g => snd g
  | None => ""
  end.

(** [re.search(p, s)]: the first cursor position, left to right and the
    end of the subject included, at which a match attempt succeeds. *)
Fixpoint search_from (p : pattern) (before : option ascii) (s : string)
    : option mstate :=
  match match_here p before s with
  | Some m => Some m
  | None =>
      match s with
      | EmptyString => None
      | String c s' => search_from p (Some c) s'
      end
  end.

Definition re_search (p : pattern) (s : string) : option mstate :=
  search_from p None s.

(** The truth value of what [re.match] and [re.search] return: a match
    object is true, [None] is false. *)
Definition is_match (m : option mstate) : bool :=
  match m with
  | Some _ => true
  | None => false
  end.

(** [re.sub(p, '', s)].  The scan looks for the next match from the end of
    the previous one ([skip] counts the characters of a match still to be
    dropped); an empty match moves the scan one character on.  With the
    empty replacement the result is what lies outside the matches. *)
Fixpoint sub_from (p : pattern) (before : option ascii) (s : string)
    (skip : nat) : string :=
  match s with
  | EmptyString => ""
  | String c s' =>
      match skip with
      | S n => sub_from p (Some c) s' n
      | O =>
          match match_len p before s with
          | Some (S n) => sub_from p (Some c) s' n
          | _ => String c (sub_from p (Some c) s' 0)
          end
      end
  end.

Definition re_sub_empty (p : pattern) (s : string) : string :=
  sub_from p None s 0.

(** [re.split(p, s)] for a pattern without groups: the pieces between
    the non-empty matches; [piece] is the piece being read. *)
Fixpoint split_from (p : pattern) (before : option ascii) (s : string)
    (skip : nat) (piece : string) : list string :=
  match s with
  | EmptyString => [piece]
  | String c s' =>
      match skip with
      | S n => split_from p (Some c) s' n piece
      | O =>
          match match_len p before s with
          | Some (S n) => piece :: split_from p (Some c) s' n ""
          | _ => split_from p (Some c) s' 0 (piece ++ String c "")
          end
      end
  end.

Definition re_split (p : pattern) (s : string) : list string :=
  split_from p None s 0 "".

(** *** Pattern syntax helpers *)

Definition plus (a : atom) : regex := Rep a 1 None.
Definition star (a : atom) : regex := Rep a 0 None.
Definition times (a : atom) (n : nat) : regex := Rep a n (Some n).

Fixpoint lit (s : string) : regex :=
  match s with
  | EmptyString => Empty
  | String c EmptyString => Atom (Lit c)
  | String c s' => Cat (Atom (Lit c)) (lit s')
  end.

Fixpoint seq (rs : list regex) : regex :=
  match rs with
  | [] => Empty
  | [r] => r
  | r :: rs' => Cat r (seq rs')
  end.

Fixpoint alts (rs : list regex) : regex :=
  match rs with
  | [] => Empty
  | [r] => r
  | r :: rs' => Alt r (alts rs')
  end.

End Re.

Import Re.

(** ** Configuration constants *)

(** [TIMESPAN = 10] business days. *)
Definition TIMESPAN : nat := 10.

(** [LIMIT = 0.05], the decimal the literal is written with; the program
    holds the double nearest to it. *)
Definition LIMIT : Q := 5 # 100.

Definition flags_I : flags := Flags true false false.
Definition flags_IM : flags := Flags true true false.
Definition flags_IMS : flags := Flags true true true.
Definition flags_none : flags := Flags false false false.

(** [FILENAME_PATTERN = re.compile('(\w+)-(.+)-8-K\.txt', re.IGNORECASE)] *)
Definition FILENAME_PATTERN : pattern :=
  Pattern (seq [Group 1 (plus (Word false)); lit "-"; Group 2 (plus Dot);
                lit "-8-K.txt"])
          flags_I.

(** ** Paths: [os.path.join] on POSIX *)

Definition path_join2 (a b : string) : string :=
  if String.prefix "/" b then b
  else match a with
       | EmptyString => b
       | _ => if String.prefix "/" (String.rev a) then a ++ b
              else a ++ "/" ++ b
       end.

Definition path_join (a : string) (parts : list string) : string :=
  fold_left path_join2 parts a.

(** ** Timestamps

    Only the calendar date of a [pandas.Timestamp] is observed by the
    program, through [strftime('%Y-%m-%d')]. *)

Record Timestamp : Type := MkTimestamp {
  year : nat;
  month : nat;
  day : nat
}.

Definition decimal (n : nat) : string :=
  NilZero.string_of_uint (Nat.to_uint n).

Fixpoint zeros (n : nat) : string :=
  match n with
  | O => ""
  | S n' => String "0" (zeros n')
  end.

(** A number in decimal, left-padded with zeros to [width] digits. *)
Definition zero_padded (width n : nat) : string :=
  let d := decimal n in zeros (width - String.length d) ++ d.

Definition strftime_Ymd (t : Timestamp) : string :=
  zero_padded 4 (year t) ++ "-" ++ zero_padded 2 (month t) ++ "-" ++
  zero_padded 2 (day t).

(** [get_parsed_filename]: ['{symbol}-{date}.txt']. *)
Definition get_parsed_filename (symbol : string) (timestamp : Timestamp)
    : string :=
  symbol ++ "-" ++ strftime_Ymd timestamp ++ ".txt".

(** ** File discovery *)

(** The test of one file name in the loop of [filelistings]: the name must
    contain ['8-K.txt'] and [re.match] must succeed; the result is
    [match.groups()]. *)
Definition filename_groups (name : string) : option (string * string) :=
  if Str.contains "8-K.txt" name then
    match re_match FILENAME_PATTERN name with
    | Some m => Some (group m 1, group m 2)
    | None => None
    end
  else None.

Section FileListings.

(** [pandas.Timestamp(datetime)]; [None] when the string is not a date
    and the constructor raises. *)
Variable Timestamp_of_string : string -> option Timestamp.

Definition filing : Type := string * Timestamp * string.

(** [filedict[symbol].append(...)] on a [defaultdict(list)]. *)
Definition filedict_append (filedict : gmap string (list filing))
    (symbol : string) (f : filing) : gmap string (list filing) :=
  <[symbol := default [] (filedict !! symbol) ++ [f]]> filedict.

(** [filelistings] over the [(root, name)] pairs that [os.walk(FORM_DIR)]
    enumerates; [None] when a [Timestamp] cannot be built. *)
Fixpoint filelistings_from (walk : list (string * string))
    (filedict : gmap string (list filing))
    : option (gmap string (list filing)) :=
  match walk with
  | [] => Some filedict
  | (root, name) :: walk' =>
      match filename_groups name with
      | Some (symbol, datetime) =>
          match Timestamp_of_string datetime with
          | Some timestamp =>
              filelistings_from walk'
                (filedict_append filedict symbol
                   (symbol, timestamp, path_join root [name]))
          | None => None
          end
      | None => filelistings_from walk' filedict
      end
  end.

Definition filelistings (walk : list (string * string))
    : option (gmap string (list filing)) :=
  filelistings_from walk ∅.

End FileListings.


(** ** Floating-point values

    Prices and returns are IEEE 754 doubles in the program.  A value is
    not-a-number, one of the two infinities or a finite number, given by
    its exact value as a rational; the two zeros are not told apart.  The
    arithmetic of the return series rounds every result to the nearest
    double ([fadd], [fsub], [fmul], [fdiv]); comparisons are exact, as
    they are on doubles. *)

Module Float.

Inductive pyfloat : Type :=
| NaN
| Inf (negative : bool)
| Fin (q : Q).

Definition Qlt_bool (a b : Q) : bool := negb (Qle_bool b a).

Definition isnan (x : pyfloat) : bool :=
  match x with NaN => true | _ => false end.

Definition neg (x : pyfloat) : pyfloat :=
  match x with
  | NaN => NaN
  | Inf s => Inf (negb s)
  | Fin q => Fin (- q)
  end.

(** The exact sum, product and quotient, before rounding. *)
Definition add (x y : pyfloat) : pyfloat :=
  match x, y with
  | NaN, _ | _, NaN => NaN
  | Inf s, Inf t => if Bool.eqb s t then Inf s else NaN
  | Inf s, Fin _ | Fin _, Inf s => Inf s
  | Fin a, Fin b => Fin (a + b)
  end.

Definition sub (x y : pyfloat) : pyfloat := add x (neg y).

Definition mul (x y : pyfloat) : pyfloat :=
  match x, y with
  | NaN, _ | _, NaN => NaN
  | Inf s, Inf t => Inf (xorb s t)
  | Inf s, Fin q | Fin q, Inf s =>
      if Qeq_bool q 0 then NaN else Inf (xorb s (Qlt_bool q 0))
  | Fin a, Fin b => Fin (a * b)
  end.

(** Array division: a zero divisor gives an infinity or not-a-number, it
    does not raise. *)
Definition div (x y : pyfloat) : pyfloat :=
  match x, y with
  | NaN, _ | _, NaN => NaN
  | Inf _, Inf _ => NaN
  | Inf s, Fin q => Inf (xorb s (Qlt_bool q 0))
  | Fin _, Inf _ => Fin 0
  | Fin a, Fin b =>
      if Qeq_bool b 0
      then (if Qeq_bool a 0 then NaN else Inf (Qlt_bool a 0))
      else Fin (a / b)
  end.

(** [floor (log2 (n / d))]. *)
Definition ilog2 (n d : positive) : Z :=
  let k := (Z.log2 (Zpos n) - Z.log2 (Zpos d))%Z in
  if (Zpos n * 2 ^ Z.max 0 (- k) <? Zpos d * 2 ^ Z.max 0 k)%Z
  then (k - 1)%Z else k.

(** The double nearest to [n / d], ties to the even significand.  The
    significand [m'] has 53 bits and the unit in the last place is [2 ^ e];
    [e] is no less than -1074, where doubles become subnormal and at last
    zero, and a result of [2 ^ 1024] or more overflows to infinity. *)
Definition round_pos (n d : positive) : pyfloat :=
  let e := Z.max (ilog2 n d - 52) (-1074) in
  let num := (Zpos n * 2 ^ Z.max 0 (- e))%Z in
  let den := (Zpos d * 2 ^ Z.max 0 e)%Z in
  let m := (num / den)%Z in
  let r := (num mod den)%Z in
  let up := (den <? 2 * r)%Z || ((den =? 2 * r)%Z && Z.odd m) in
  let m' := if up then (m + 1)%Z else m in
  if (2 ^ 1024 <=? m' * 2 ^ Z.max 0 e)%Z then Inf false
  else Fin (Qmake (m' * 2 ^ Z.max 0 e) (Z.to_pos (2 ^ Z.max 0 (- e)))).

(** Rounding to double precision; a double is left as it is. *)
Definition round (x : pyfloat) : pyfloat :=
  match x with
  | Fin q =>
      match Qnum q with
      | Z0 => Fin 0
      | Zpos n => round_pos n (Qden q)
      | Zneg n => neg (round_pos n (Qden q))
      end
  | _ => x
  end.

(** [x + y], [x - y], [x * y] and [x / y] on doubles. *)
Definition fadd (x y : pyfloat) : pyfloat := round (add x y).
Definition fsub (x y : pyfloat) : pyfloat := round (sub x y).
Definition fmul (x y : pyfloat) : pyfloat := round (mul x y).
Definition fdiv (x y : pyfloat) : pyfloat := round (div x y).

(** [x < y]; every comparison with not-a-number is false. *)
Definition lt (x y : pyfloat) : bool :=
  match x, y with
  | NaN, _ | _, NaN => false
  | Inf s, Inf t => s && negb t
  | Inf s, Fin _ => s
  | Fin _, Inf t => negb t
  | Fin a, Fin b => Qlt_bool a b
  end.

Definition gt (x y : pyfloat) : bool := lt y x.

End Float.

Import Float.

(** ** Return classifier *)

(** [Series.fillna(method='pad')]: a missing value takes the last value
    before it. *)
Fixpoint pad_from (last : pyfloat) (xs : list pyfloat) : list pyfloat :=
  match xs with
  | [] => []
  | x :: xs' =>
      let x' := if isnan x then last else x in x' :: pad_from x' xs'
  end.

(** [data.div(data.shift(1)) - 1] with [previous] the value before [xs]. *)
Fixpoint pct_from (previous : pyfloat) (xs : list pyfloat) : list pyfloat :=
  match xs with
  | [] => []
  | x :: xs' => Float.fsub (Float.fdiv x previous) (Fin 1) :: pct_from x xs'
  end.

(** [Series.pct_change()]: the first entry has no predecessor. *)
Definition pct_change (close_prices : list pyfloat) : list pyfloat :=
  pct_from NaN (pad_from NaN close_prices).

(** [Series.cumprod()]: missing entries stay missing and are skipped by the
    running product [acc]. *)
Fixpoint cumprod_from (acc : pyfloat) (xs : list pyfloat) : list pyfloat :=
  match xs with
  | [] => []
  | x :: xs' =>
      if isnan x then NaN :: cumprod_from acc xs'
      else let acc' := Float.fmul acc x in acc' :: cumprod_from acc' xs'
  end.

Definition cumprod (xs : list pyfloat) : list pyfloat :=
  cumprod_from (Fin 1) xs.

(** [series[-1]]. *)
Definition last_item (xs : list pyfloat) : result pyfloat :=
  match rev xs with
  | [] => Raise IndexError
  | x :: _ => Return x
  end.

(** [returns = close_prices.pct_change()];
    [cum_returns = ((1 + returns).cumprod() - 1)[-1]]. *)
Definition cum_returns (close_prices : list pyfloat) : result pyfloat :=
  let returns := pct_change close_prices in
  last_item
    (map (fun x => Float.fsub x (Fin 1))
         (cumprod (map (fun r => Float.fadd (Fin 1) r) returns))).

(** The class labels, which are also the corpus directory names. *)
Definition neg_label : string := "neg".
Definition pos_label : string := "pos".
Definition neut_label : string := "neut".

(** The [if]/[elif] at the end of [classify] and the [return]: with another
    number of classes [sentiment] would never be assigned.  The product
    [-1*limit] changes the sign of a double and is exact. *)
Definition sentiment (num_class : nat) (cum_returns limit : pyfloat)
    : result string :=
  if Nat.eqb num_class 3 then
    Return (if Float.lt cum_returns (Float.mul (Fin (-1)) limit) then neg_label
            else if Float.gt cum_returns limit then pos_label
            else neut_label)
  else if Nat.eqb num_class 2 then
    Return (if Float.lt cum_returns limit then neg_label else pos_label)
  else Raise UnboundLocalError.

Section Classifier.

(** The market-data collaborators: [timestamp + BDay(n)], the
    business-day [DatetimeIndex] and [Equity(symbol)] with its historical
    closes (not-a-number at a date without data). *)
Variable BDay_add : Timestamp -> Z -> Timestamp.
Variable DatetimeIndex_B : Timestamp -> nat -> list Timestamp.
Variable Equity : Type.
Variable Equity_of : string -> Equity.
Variable historical_Close : Equity -> Timestamp -> pyfloat.

(** [if symbol not in EQUITIES: EQUITIES[symbol] = Equity(symbol)], then
    [EQUITIES[symbol]]. *)
Definition lookup_equity (EQUITIES : gmap string Equity) (symbol : string)
    : Equity * gmap string Equity :=
  match EQUITIES !! symbol with
  | Some equity => (equity, EQUITIES)
  | None =>
      let equity := Equity_of symbol in
      (equity, <[symbol := equity]> EQUITIES)
  end.

(** [EQUITIES[symbol].historical.ix[dt_index]['Close']]. *)
Definition close_prices (equity : Equity) (timestamp : Timestamp)
    (timespan : nat) (adjust_delay : Z) : list pyfloat :=
  let adjusted_timestamp := BDay_add timestamp adjust_delay in
  let dt_index := DatetimeIndex_B adjusted_timestamp timespan in
  map (historical_Close equity) dt_index.

(** [classify]: the label, or the exception, and the cache afterwards. *)
Definition classify (EQUITIES : gmap string Equity) (symbol : string)
    (timestamp : Timestamp) (timespan num_class : nat) (adjust_delay : Z)
    (limit : pyfloat) : result string * gmap string Equity :=
  if Nat.eqb num_class 2 || Nat.eqb num_class 3 then
    let '(equity, EQUITIES') := lookup_equity EQUITIES symbol in
    let prices := close_prices equity timestamp timespan adjust_delay in
    (cum ← cum_returns prices; sentiment num_class cum limit,
     EQUITIES')
  else (Raise AssertionError, EQUITIES).

End Classifier.


(** ** Exhibit locator *)

(** [re.compile('.+(announces|reports|accounced|reported).+(quarter).+',
    flags=re.I|re.M)] *)
Definition ANNOUNCEMENT_PATTERN : pattern :=
  Pattern (seq [plus Dot;
                Group 1 (alts [lit "announces"; lit "reports";
                               lit "accounced"; lit "reported"]);
                plus Dot;
                Group 2 (lit "quarter");
                plus Dot])
          flags_IM.

Definition EX99_MARKER : string := "<TYPE>EX-99".
Definition TEXT_OPEN : string := "<TEXT>".
Definition TEXT_CLOSE : string := "</TEXT>".

(** The locator's two flags. *)
Record er_state : Type := ErState {
  start_marker_found : bool;
  return_line : bool
}.

(** The first two [if] statements of the loop body. *)
Definition er_flags (st : er_state) (line : string) : er_state :=
  let st1 :=
    if negb (start_marker_found st) then
      if Str.contains EX99_MARKER line then ErState true (return_line st)
      else if is_match (re_search ANNOUNCEMENT_PATTERN line)
           then ErState (start_marker_found st) true
           else st
    else st in
  if start_marker_found st1 && Str.contains TEXT_OPEN line
  then ErState (start_marker_found st1) true
  else st1.

(** The last [if] of the loop body: [break]. *)
Definition er_break (st : er_state) (line : string) : bool :=
  Str.contains TEXT_CLOSE line && start_marker_found st.

(** The generator driven to exhaustion on the line stream [lines]: the
    lines it yields, and the lines of the stream it never read. *)
Fixpoint er_loop (st : er_state) (lines : list string)
    : list string * list string :=
  match lines with
  | [] => ([], [])
  | line :: lines' =>
      let st' := er_flags st line in
      let yielded := if return_line st' then [line] else [] in
      if er_break st' line then (yielded, lines')
      else let '(more, unread) := er_loop st' lines' in
           (yielded ++ more, unread)
  end.

Definition er_generator (lines : list string) : list string * list string :=
  er_loop (ErState false false) lines.

(** ** Noise filter *)

Definition accepted_or_GAAP : regex :=
  Group 1 (alts [lit "generally accepted"; lit "GAAP"]).

Definition a_an_the : regex := Group 1 (alts [lit "a"; lit "an"; lit "the"]).

Definition digit : atom := Digit false.      (* [\d] *)
Definition nondigit : atom := Digit true.    (* [\D] *)
Definition space : atom := Space false.      (* [\s] *)
Definition wordchar : atom := Word false.    (* [\w] *)
Definition nonword : atom := Word true.      (* [\W] *)

(** The [PATTERNS] dictionary of [clean_text_helper], in source order. *)
Definition PATTERNS : list (string * pattern) :=
  [ (* '^.+accordance with.+(generally accepted|GAAP).+$' *)
    ("ACCOUNTING",
     Pattern (seq [Bol; plus Dot; lit "accordance with"; plus Dot;
                   accepted_or_GAAP; plus Dot; Eol]) flags_IMS);
    (* '^\s*.*forward-looking.+statement.*$' *)
    ("FORWARD-LOOKING",
     Pattern (seq [Bol; star space; star Dot; lit "forward-looking"; plus Dot;
                   lit "statement"; star Dot; Eol]) flags_IMS);
    (* '^\s*.*cautionary.+statement.*$' *)
    ("CAUTIONARY-STATEMENT",
     Pattern (seq [Bol; star space; star Dot; lit "cautionary"; plus Dot;
                   lit "statement"; star Dot; Eol]) flags_IMS);
    (* '^\s*.*conference call.*$' *)
    ("CONFERENCE CALL",
     Pattern (seq [Bol; star space; star Dot; lit "conference call"; star Dot;
                   Eol]) flags_IMS);
    (* '^.+live webcast.+$' *)
    ("LIVE WEBCAST",
     Pattern (seq [Bol; plus Dot; lit "live webcast"; plus Dot; Eol])
             flags_IMS);
    (* r'^.+ is.+(a|an|the).+under.+the.+symbol [A-Z]+.$' *)
    ("COMPANY INFO1",
     Pattern (seq [Bol; plus Dot; lit " is"; plus Dot; a_an_the; plus Dot;
                   lit "under"; plus Dot; lit "the"; plus Dot; lit "symbol ";
                   plus (Range [("A", "Z")%char]); Atom Dot; Eol]) flags_IMS);
    (* r'^.+founded.+is (a|an|the)' *)
    ("COMPANY INFO2",
     Pattern (seq [Bol; plus Dot; lit "founded"; plus Dot; lit "is ";
                   a_an_the]) flags_IMS);
    (* r'^Founded.+is' *)
    ("COMPANY INFO3",
     Pattern (seq [Bol; lit "Founded"; plus Dot; lit "is"]) flags_IMS);
    (* r'.+(additional|more).+information.+' *)
    ("COMPANY INFO4",
     Pattern (seq [plus Dot; Group 1 (alts [lit "additional"; lit "more"]);
                   plus Dot; lit "information"; plus Dot]) flags_IMS);
    (* r'^.+ is (a|an|the).+company.+' *)
    ("COMPANY INFO5",
     Pattern (seq [Bol; plus Dot; lit " is "; a_an_the; plus Dot;
                   lit "company"; plus Dot]) flags_IMS);
    (* r'.+\d{1}\D*\d{3}\D*\d{3}\D*\d{4}\D*.+' *)
    ("COMPANY CONTACT2",
     Pattern (seq [plus Dot; times digit 1; star nondigit; times digit 3; star nondigit; times digit 3;
                   star nondigit; times digit 4; star nondigit; plus Dot]) flags_IMS);
    (* r'^\([0-9A-Z]+\)$', compiled without flags *)
    ("TABLE HEADER1",
     Pattern (seq [Bol; lit "("; plus (Range [("0", "9"); ("A", "Z")]%char);
                   lit ")"; Eol]) flags_none);
    (* r'\D+.*in\s+millions\D*.*\D+$' *)
    ("TABLE HEADER2",
     Pattern (seq [plus nondigit; star Dot; lit "in"; plus space; lit "millions"; star nondigit;
                   star Dot; plus nondigit; Eol]) flags_IMS);
    (* r'\D+.*in\s+thousands\D*.*\D+$' *)
    ("TABLE HEADER3",
     Pattern (seq [plus nondigit; star Dot; lit "in"; plus space; lit "thousands";
                   star nondigit; star Dot; plus nondigit; Eol]) flags_IMS);
    (* r'\D+.*unaudited.*\D+$' *)
    ("TABLE HEADER4",
     Pattern (seq [plus nondigit; star Dot; lit "unaudited"; star Dot; plus nondigit; Eol])
             flags_IMS);
    (* r'^ABOUT .+' *)
    ("ABOUT HEADER", Pattern (seq [Bol; lit "ABOUT "; plus Dot]) flags_IMS);
    (* r'^note\w{,2}\D*.+' *)
    ("NOTES",
     Pattern (seq [Bol; lit "note"; Rep wordchar 0 (Some 2); star nondigit; plus Dot])
             flags_IMS);
    (* r'.*Exhibit\s*\W*99.*' *)
    ("EXHIBIT",
     Pattern (seq [star Dot; lit "Exhibit"; star space; star nonword; lit "99";
                   star Dot]) flags_IMS);
    (* r'^\s*\(\d+\)\s*.+' *)
    ("FOOTNOTES",
     Pattern (seq [Bol; star space; lit "("; plus digit; lit ")"; star space; plus Dot])
             flags_IMS);
    (* '.+registered trademark.+' *)
    ("TRADEMARKS1",
     Pattern (seq [plus Dot; lit "registered trademark"; plus Dot]) flags_IMS);
    (* '.+trademark.+of.+' *)
    ("TRADEMARKS2",
     Pattern (seq [plus Dot; lit "trademark"; plus Dot; lit "of"; plus Dot])
             flags_IMS);
    (* '^\s*\D*\d+\D*\s*$' *)
    ("PAGE NUMBERS1",
     Pattern (seq [Bol; star space; star nondigit; plus digit; star nondigit; star space; Eol])
             flags_IMS);
    (* '\s*page\s*\d+\s*\w*\d*.+' *)
    ("PAGE NUMBERS2",
     Pattern (seq [star space; lit "page"; star space; plus digit; star space; star wordchar; star digit;
                   plus Dot]) flags_IMS);
    (* '^this.+press.+release.+' *)
    ("RELEASE NOTE1",
     Pattern (seq [Bol; lit "this"; plus Dot; lit "press"; plus Dot;
                   lit "release"; plus Dot]) flags_IMS);
    (* '.+securities.+act.+of.+' *)
    ("RELEASE NOTE2",
     Pattern (seq [plus Dot; lit "securities"; plus Dot; lit "act"; plus Dot;
                   lit "of"; plus Dot]) flags_IMS);
    (* '.+copyright.+all rights reserved.' *)
    ("COPYRIGHTS",
     Pattern (seq [plus Dot; lit "copyright"; plus Dot;
                   lit "all rights reserved"; Atom Dot]) flags_IMS) ].

(** [regex_sub = lambda pattern : len(re.sub(pattern, '', text))] *)
Definition regex_sub (text : string) (p : pattern) : nat :=
  String.length (re_sub_empty p text).

(** [all(map(regex_sub, PATTERNS.values()))]: every length is non-zero. *)
Definition clean_text_helper (text : string) : bool :=
  forallb (fun l => negb (Nat.eqb l 0)) (map (regex_sub text) (map snd PATTERNS)).

(** The separator of [re.split('\n\n', er)]. *)
Definition BLANK_LINE : pattern :=
  Pattern (Cat (Atom (Lit Str.newline)) (Atom (Lit Str.newline))) flags_none.

Definition blank_line : string := String Str.newline (String Str.newline "").

(** The candidate text of [clean_text]: the retained blocks, rejoined. *)
Definition clean_candidate (er : string) : string :=
  Str.join blank_line
           (List.filter clean_text_helper (re_split BLANK_LINE er)).

(** [clean_text(er, trim_limit)].  The ratio [len(text)/float(len(er))] is
    a float division, which raises on a zero divisor; the ratio and the
    limit are compared as exact fractions (the default 0.05 is 1/20), which
    agrees with the comparison of the doubles for every length a string can
    have. *)
Definition clean_text (er : string) (trim_limit : Q) : result string :=
  let text := clean_candidate er in
  if Nat.eqb (String.length er) 0 then Raise ZeroDivisionError
  else
    let ratio := (inject_Z (Z.of_nat (String.length text)) /
                  inject_Z (Z.of_nat (String.length er)))%Q in
    Return (if Qle_bool trim_limit ratio then text else er).

Definition DEFAULT_TRIM_LIMIT : Q := 5 # 100.

(** ** The file system and the corpus layout *)

Record filesystem : Type := FileSystem {
  dirs : gset string;
  files : gmap string string
}.

(** [os.path.exists] *)
Definition path_exists (fs : filesystem) (path : string) : bool :=
  bool_decide (path ∈ dirs fs) || bool_decide (is_Some (files fs !! path)).

(** [mkdir]: [os.makedirs] unless the directory is there.  The directories
    above [dir_path] are not recorded, and a failure of [os.makedirs], which
    the source swallows, is not modelled. *)
Definition mkdir (fs : filesystem) (dir_path : string) : filesystem :=
  if bool_decide (dir_path ∈ dirs fs) then fs
  else FileSystem ({[dir_path]} ∪ dirs fs) (files fs).

(** [write_file]: nothing is written for an empty buffer.  The file is
    taken to open and the buffer to be written as it is; an [open] that
    fails, in a directory that is missing, is not modelled. *)
Definition write_file (fs : filesystem) (filepath string_buffer : string)
    : filesystem :=
  match string_buffer with
  | EmptyString => fs
  | _ => FileSystem (dirs fs) (<[filepath := string_buffer]> (files fs))
  end.

(** The lines [readline] returns, each with its line terminator. *)
Fixpoint lines_from (line content : string) : list string :=
  match content with
  | EmptyString => match line with EmptyString => [] | _ => [line] end
  | String c content' =>
      if Ascii.eqb c Str.newline
      then (line ++ String c "")%string :: lines_from "" content'
      else lines_from (line ++ String c "")%string content'
  end.

(** [read_file]: the line stream of a file. *)
Definition read_file (fs : filesystem) (filepath : string)
    : result (list string) :=
  match files fs !! filepath with
  | Some content => Return (lines_from "" content)
  | None => Raise IOError
  end.

Section Orchestrator.

(** [os.path.expanduser("~")]. *)
Variable home : string.

(** The markup collaborators of [extract_er] ([BeautifulSoup] and
    [nltk.clean_html]) on the text of the located exhibit; [None] when the
    document has no body and [AttributeError] is raised. *)
Variable markup_body : string -> option string.

(** The character-repair table, applied to the extracted text. *)
Variable killgremlins : string -> string.

Variable BDay_add : Timestamp -> Z -> Timestamp.
Variable DatetimeIndex_B : Timestamp -> nat -> list Timestamp.
Variable Equity : Type.
Variable Equity_of : string -> Equity.
Variable historical_Close : Equity -> Timestamp -> pyfloat.

Definition CORPORA_PATH : string :=
  path_join home ["sec_edgar"; "corpra"; decimal TIMESPAN].

(** [is_parsed]: "Return True if parsed (classified) filing already
    exists, false otherwise". *)
Definition is_parsed (fs : filesystem) (parsed_filename : string) : bool :=
  path_exists fs (path_join CORPORA_PATH [neg_label; parsed_filename]) ||
  path_exists fs (path_join CORPORA_PATH [pos_label; parsed_filename]).

Definition extract_er (lines : list string) : string :=
  default "" (markup_body (String.concat "" (fst (er_generator lines)))).

Definition world : Type := filesystem * gmap string Equity.

(** The body of the loop of [parser_dir] for one filing. *)
Definition parse_filing (wd : world) (f : filing) : result world :=
  let '(symbol, timestamp, filepath) := f in
  let '(fs, EQUITIES) := wd in
  let parsed_filename := get_parsed_filename symbol timestamp in
  if is_parsed fs parsed_filename then Return wd
  else
    lines ← read_file fs filepath;
    let er := extract_er lines in
    if negb (String.eqb er "") && Str.contains "quarter" er then
      clean_er ← clean_text (killgremlins er) DEFAULT_TRIM_LIMIT;
      let '(er_class, EQUITIES') :=
        classify BDay_add DatetimeIndex_B Equity Equity_of historical_Close
                 EQUITIES symbol timestamp TIMESPAN 3 (-4)
                 (Float.round (Fin LIMIT)) in
      er_class ← er_class;
      let corpra_path :=
        path_join CORPORA_PATH [er_class; parsed_filename] in
      let fs1 := mkdir fs (path_join CORPORA_PATH [er_class]) in
      Return (write_file fs1 corpra_path clean_er, EQUITIES')
    else Return wd.

Fixpoint parser_dir (wd : world) (filings : list filing) : result world :=
  match filings with
  | [] => Return wd
  | f :: filings' => wd' ← parse_filing wd f; parser_dir wd' filings'
  end.

End Orchestrator.

(** ** Quantities of the specification *)

(** [len(t)] as a number to compare with fractions. *)
Definition len (t : string) : Q := inject_Z (Z.of_nat (String.length t)).

(** Simple period returns between consecutive closes,
    [r_i = p_i / p_(i-1) - 1], with [previous] the close before [ps]. *)
Fixpoint simple_returns (previous : Q) (ps : list Q) : list Q :=
  match ps with
  | [] => []
  | p :: ps' => (p / previous - 1)%Q :: simple_returns p ps'
  end.

(** The compounded return, the product of the [1 + r_i] less one. *)
Definition compounded_return (rs : list Q) : Q :=
  (fold_right (fun r acc => (1 + r) * acc) 1 rs - 1)%Q.

(** The arithmetic sum of the returns. *)
Definition summed_return (rs : list Q) : Q := fold_right Qplus 0%Q rs.

(** The same quantities in double precision, as a program computes them
    from the closes in window order: the returns [r_i = p_i / p_(i-1) - 1],
    their compounded product less one, and their sum. *)
Fixpoint simple_returns_fl (previous : pyfloat) (ps : list pyfloat)
    : list pyfloat :=
  match ps with
  | [] => []
  | p :: ps' =>
      Float.fsub (Float.fdiv p previous) (Fin 1) :: simple_returns_fl p ps'
  end.

Definition compounded_return_fl (rs : list pyfloat) : pyfloat :=
  Float.fsub
    (fold_left (fun acc r => Float.fmul acc (Float.fadd (Fin 1) r)) rs (Fin 1))
    (Fin 1).

Definition summed_return_fl (rs : list pyfloat) : pyfloat :=
  fold_left Float.fadd rs (Fin 0).

(** The change from the first close to the last, [p_n / p_1 - 1], in double
    precision. *)
Definition first_last_return_fl (p1 pn : pyfloat) : pyfloat :=
  Float.fsub (Float.fdiv pn p1) (Fin 1).

(** A market for examples: the window of a filing dated the first of a
    month is the days 1, 2, ... of that month, and the closes of the one
    equity on these days are [closes]. *)
Definition days_from (start : Timestamp) (periods : nat) : list Timestamp :=
  map (fun i => MkTimestamp (year start) (month start) (day start + i))
      (List.seq 0 periods).

Definition listed_close (closes : list Q) (equity : unit) (date : Timestamp)
    : pyfloat :=
  nth (day date - 1) (map Fin closes) NaN.

(** [classify] on that market, for the filing of 2013-01-01 and without
    adjustment of the date: the label. *)
Definition label_of (closes : list Q) (num_class : nat) (limit : pyfloat)
    : result string :=
  fst (classify (fun timestamp _ => timestamp) days_from unit (fun _ => tt)
                (listed_close closes) ∅ "ABC" (MkTimestamp 2013 1 1)
                (length closes) num_class 0 limit).

(** The matcher's position after it has read the text [u]. *)
Fixpoint advance_over (st : mstate) (u : string) : mstate :=
  match u with
  | EmptyString => st
  | String c u' => advance_over (advance st c) u'
  end.

(** A character other than the line feed. *)
Definition not_newline (c : ascii) : bool := negb (Ascii.eqb c Str.newline).

(** The named predicate [p] fires on a block: [re.search] finds a match
    somewhere in it. *)
Definition fires (p : pattern) (block : string) : bool :=
  is_match (re_search p block).

(** No predicate of the battery fires on the block. *)
Definition fires_none (block : string) : bool :=
  forallb (fun named => negb (fires (snd named) block)) PATTERNS.

(** The match of [p] at the start of the block runs to its end. *)
Definition covers (p : pattern) (block : string) : bool :=
  match match_len p None block with
  | Some n => Nat.eqb n (String.length block)
  | None => false
  end.

(** Some predicate of the battery matches the block from end to end. *)
Definition covered (block : string) : bool :=
  existsb (fun named => covers (snd named) block) PATTERNS.

(** [all(map(regex_sub, patterns))] over any battery of patterns. *)
Definition all_nonzero (block : string) (patterns : list (string * pattern))
    : bool :=
  forallb (fun l => negb (Nat.eqb l 0))
          (map (regex_sub block) (map snd patterns)).

(** The name ends with the suffix [-8-K.txt], compared without regard to
    case. *)
Fixpoint lower_string (t : string) : string :=
  match t with
  | EmptyString => EmptyString
  | String c t' => String (Str.lower c) (lower_string t')
  end.

Definition ends_with_8K (name : string) : bool :=
  String.prefix (String.rev "-8-k.txt") (String.rev (lower_string name)).

(** ** Sample inputs *)

(** A line of a filing, with its terminator. *)
Definition text_line (text : string) : string := text ++ String Str.newline "".

Definition sample_release : string :=
  "Sales rose in the third quarter." ++ blank_line ++ "ABOUT ACME".

(** A paragraph in which the pattern 'COMPANY INFO2' matches a fragment. *)
Definition company_paragraph : string :=
  "Acme was founded long ago and is a leader".

(** Two paragraphs with two blank lines between them. *)
Definition spaced_paragraphs : string :=
  "a" ++ blank_line ++ blank_line ++ "b".

(** A corpus in which the filing ABC of 2013-01-15 already has its entry,
    under the label [neut], and the collaborators of a run over it: the
    markup of the exhibit reduces to one sentence and the closes of the
    window are flat. *)
Definition sample_home : string := "/home/user".

Definition sample_entry : string :=
  "/home/user/sec_edgar/corpra/10/neut/ABC-2013-01-15.txt".

Definition sample_filing : filing :=
  ("ABC", MkTimestamp 2013 1 15,
   "/home/user/sec_edgar/data/ABC-2013-01-15-8-K.txt").

Definition sample_fs : filesystem :=
  FileSystem
    {[ "/home/user/sec_edgar/corpra/10/neut" ]}
    (<[ sample_entry := "An entry written by an earlier run." ]>
       {[ "/home/user/sec_edgar/data/ABC-2013-01-15-8-K.txt" :=
            (text_line "<TYPE>EX-99.1" ++ text_line "<TEXT>" ++
             text_line "<p>Acme sales rose in the third quarter.</p>" ++
             text_line "</TEXT>")%string ]}).

Definition sample_run (fs : filesystem) : result (world unit) :=
  parser_dir sample_home
    (fun _ => Some "Acme sales rose in the third quarter.")
    (fun text => text)
    (fun timestamp _ => timestamp)
    (fun timestamp periods => repeat timestamp periods)
    unit (fun _ => tt) (fun _ _ => Fin 100)
    (fs, ∅) [sample_filing].

(** ** Further quantities *)

From Stdlib Require Import DecimalNat.

(** The characters of a list of blocks, separators not counted. *)
Fixpoint total_length (blocks : list string) : nat :=
  match blocks with
  | [] => 0
  | b :: blocks' => String.length b + total_length blocks'
  end.

(** Two paragraphs that the filter lets through. *)
Definition two_paragraphs : string :=
  "Sales rose." ++ blank_line ++ "Profit fell.".

(** The longest prefix of [t] whose characters satisfy [f], and what
    follows it. *)
Fixpoint take_while (f : ascii -> bool) (t : string) : string :=
  match t with
  | EmptyString => EmptyString
  | String c t' => if f c then String c (take_while f t') else EmptyString
  end.

Fixpoint drop_while (f : ascii -> bool) (t : string) : string :=
  match t with
  | EmptyString => EmptyString
  | String c t' => if f c then drop_while f t' else t
  end.

(** A character that is not a decimal digit. *)
Definition not_digit (c : ascii) : bool := negb (Str.is_digit c).

(** A character other than [sep]. *)
Definition other_than (sep c : ascii) : bool := negb (Ascii.eqb c sep).

(** The number a string of decimal digits denotes, leading zeros
    allowed. *)
Definition digits_value (s : string) : option nat :=
  option_map Nat.of_uint (NilEmpty.uint_of_string s).

(** Entries of [PATTERNS], by name. *)
Definition COMPANY_INFO2 : pattern :=
  Pattern (seq [Bol; plus Dot; lit "founded"; plus Dot; lit "is ";
                a_an_the]) flags_IMS.

Definition ABOUT_HEADER : pattern :=
  Pattern (seq [Bol; lit "ABOUT "; plus Dot]) flags_IMS.

Definition PAGE_NUMBERS1 : pattern :=
  Pattern (seq [Bol; star space; star nondigit; plus digit; star nondigit;
                star space; Eol]) flags_IMS.

Definition CONFERENCE_CALL : pattern :=
  Pattern (seq [Bol; star space; star Dot; lit "conference call"; star Dot;
                Eol]) flags_IMS.

(** What every entry of the dictionary of [filelistings] satisfies: the
    filings under a key are not empty, carry the key as their symbol, and
    the key is a non-empty run of word characters. *)
Definition grouped_by_symbol (filedict : gmap string (list filing)) : Prop :=
  forall (key : string) (filings : list filing),
    filedict !! key = Some filings ->
    filings <> [] /\
    key <> "" /\ Str.forall_chars Str.is_word key = true /\
    Forall (fun f : filing => fst (fst f) = key) filings.

(** A date parser for examples: it knows one date. *)
Definition sample_date_parser (datetime : string) : option Timestamp :=
  if String.eqb datetime "2013-01-15" then Some (MkTimestamp 2013 1 15)
  else None.

(** A market for examples: the business days after [start] are the days
    that follow it, and the close on day [d] of a month is [100 + d]. *)
Definition sample_index (start : Timestamp) (periods : nat) : list Timestamp :=
  map (fun i => MkTimestamp (year start) (month start) (day start + i))
      (List.seq 0 periods).

Definition sample_close (equity : unit) (date : Timestamp) : pyfloat :=
  Fin (inject_Z (Z.of_nat (100 + day date))).

(** The path of the corpus entry of a filing under a label. *)
Definition entry_path (home label symbol : string) (timestamp : Timestamp)
    : string :=
  path_join (CORPORA_PATH home) [label; get_parsed_filename symbol timestamp].

(** The collaborators of [sample_run], one step of it, and the world after
    the run. *)
Definition sample_step : world unit -> filing -> result (world unit) :=
  parse_filing sample_home
    (fun _ => Some "Acme sales rose in the third quarter.")
    (fun text => text)
    (fun timestamp _ => timestamp)
    (fun timestamp periods => repeat timestamp periods)
    unit (fun _ => tt) (fun _ _ => Fin 100).

Definition sample_after : world unit :=
  match sample_step (sample_fs, ∅) sample_filing with
  | Return wd => wd
  | Raise _ => (sample_fs, ∅)
  end.

(** A corpus in which the sample filing has its entry under [neg], and an
    empty disk. *)
Definition parsed_fs : filesystem :=
  FileSystem ∅
    {[ "/home/user/sec_edgar/corpra/10/neg/ABC-2013-01-15.txt" :=
         "Sales fell." ]}.


(** ** Character repair

    [killgremlins] works on code points: a byte string is first decoded as
    ISO-8859-1, which maps every byte to the code point of the same
    number.  A text is here the list of its code points. *)

Module Gremlins.

Local Open Scope N_scope.

(** The [cp1252] dictionary, in source order. *)
Definition cp1252 : list (N * N) :=
[
  (0x80, 0x20AC); (0x81, 0xFFFD); (0x82, 0x201A); (0x83, 0x0192);
  (0x84, 0x201E); (0x85, 0x2026); (0x86, 0x2020); (0x87, 0x2021);
  (0x88, 0x02C6); (0x89, 0x2030); (0x8a, 0x0160); (0x8b, 0x2039);
  (0x8c, 0x0152); (0x8d, 0xFFFD); (0x8e, 0x017D); (0x8f, 0xFFFD);
  (0x90, 0xFFFD); (0x91, 0x2018); (0x92, 0x2019); (0x93, 0x201C);
  (0x94, 0x201D); (0x95, 0x2022); (0x96, 0x2013); (0x97, 0x2014);
  (0x98, 0x02DC); (0x99, 0x2122); (0x9a, 0x0161); (0x9b, 0x203A);
  (0x9c, 0x0153); (0x9d, 0xFFFD); (0x9e, 0x017E); (0x9f, 0x0178);
  (0xa0, 0x00A0); (0xa1, 0x00A1); (0xa2, 0x00A2); (0xa3, 0x00A3);
  (0xa4, 0x00A4); (0xa5, 0x00A5); (0xa6, 0x00A6); (0xa7, 0x00A7);
  (0xa8, 0x00A8); (0xa9, 0x00A9); (0xaa, 0x00AA); (0xab, 0x00AB);
  (0xac, 0x00AC); (0xad, 0x00AD); (0xae, 0x00AE); (0xaf, 0x00AF);
  (0xb0, 0x00B0); (0xb1, 0x00B1); (0xb2, 0x00B2); (0xb3, 0x00B3);
  (0xb4, 0x00B4); (0xb5, 0x00B5); (0xb6, 0x00B6); (0xb7, 0x00B7);
  (0xb8, 0x00B8); (0xb9, 0x00B9); (0xba, 0x00BA); (0xbb, 0x00BB);
  (0xbc, 0x00BC); (0xbd, 0x00BD); (0xbe, 0x00BE); (0xbf, 0x00BF);
  (0xc0, 0x00C0); (0xc1, 0x00C1); (0xc2, 0x00C2); (0xc3, 0x00C3);
  (0xc4, 0x00C4); (0xc5, 0x00C5); (0xc6, 0x00C6); (0xc7, 0x00C7);
  (0xc8, 0x00C8); (0xc9, 0x00C9); (0xca, 0x00CA); (0xcb, 0x00CB);
  (0xcc, 0x00CC); (0xcd, 0x00CD); (0xce, 0x00CE); (0xcf, 0x00CF);
  (0xd0, 0x00D0); (0xd1, 0x00D1); (0xd2, 0x00D2); (0xd3, 0x00D3);
  (0xd4, 0x00D4); (0xd5, 0x00D5); (0xd6, 0x00D6); (0xd7, 0x00D7);
  (0xd8, 0x00D8); (0xd9, 0x00D9); (0xda, 0x00DA); (0xdb, 0x00DB);
  (0xdc, 0x00DC); (0xdd, 0x00DD); (0xde, 0x00DE); (0xdf, 0x00DF);
  (0xe0, 0x00E0); (0xe1, 0x00E1); (0xe2, 0x00E2); (0xe3, 0x00E3);
  (0xe4, 0x00E4); (0xe5, 0x00E5); (0xe6, 0x00E6); (0xe7, 0x00E7);
  (0xe8, 0x00E8); (0xe9, 0x00E9); (0xea, 0x00EA); (0xeb, 0x00EB);
  (0xec, 0x00EC); (0xed, 0x00ED); (0xee, 0x00EE); (0xef, 0x00EF);
  (0xf0, 0x00F0); (0xf1, 0x00F1); (0xf2, 0x00F2); (0xf3, 0x00F3);
  (0xf4, 0x00F4); (0xf5, 0x00F5); (0xf6, 0x00F6); (0xf7, 0x00F7);
  (0xf8, 0x00F8); (0xf9, 0x00F9); (0xfa, 0x00FA); (0xfb, 0x00FB);
  (0xfc, 0x00FC); (0xfd, 0x00FD); (0xfe, 0x00FE); (0xff, 0x00FF)
].

(** [cp1252.get(s, s)] *)
Definition cp1252_get (c : N) : N :=
  match find (fun entry => N.eqb (fst entry) c) cp1252 with
  | Some entry => snd entry
  | None => c
  end.

(** The character class [[\x80-\xff]]. *)
Definition gremlin (c : N) : bool := (0x80 <=? c) && (c <=? 0xff).

(** [re.sub(u"[\x80-\xff]", fixup, text)]: every character of the class is
    a match of its own and is replaced by [fixup]. *)
Definition sub_gremlins (text : list N) : list N :=
  map (fun c => if gremlin c then cp1252_get c else c) text.

(** [killgremlins]: the substitution is made when [re.search] finds a
    character of the class. *)
Definition killgremlins (text : list N) : list N :=
  if existsb gremlin text then sub_gremlins text else text.

(** The code points 0x80 to 0x9f, the C1 controls that Windows-1252 uses
    for printable characters. *)
Definition c1_control (c : N) : bool := (0x80 <=? c) && (c <=? 0x9f).

(** The table applied to the C1 controls only. *)
Definition repair (c : N) : N := if c1_control c then cp1252_get c else c.

(** The code points 0x80 to 0xff, in order. *)
Definition gremlins : list N := map N.of_nat (List.seq 128 128).

End Gremlins.

(** * Properties *)

(** ** Noise filter: the trim limit *)

Lemma length_zero_empty (t : string) : String.length t = 0 <-> t = "".
Proof.
  destruct t; simpl; split; intro H; try reflexivity; discriminate H.
Qed.

Lemma len_pos (t : string) : t <> "" -> (0 < len t)%Q.
Proof.
  intro Hne. unfold len.
  destruct t as [|c t']; [contradiction|].
  unfold Qlt; simpl. lia.
Qed.

Lemma ratio_bound (limit a b : Q) :
  (0 < b)%Q -> (limit <= a / b)%Q -> (limit * b <= a)%Q.
Proof.
  intros Hb Hle.
  apply (Qmult_le_compat_r _ _ b) in Hle; [|apply Qlt_le_weak; exact Hb].
  unfold Qdiv in Hle.
  rewrite <- Qmult_assoc, (Qmult_comm (/ b)), Qmult_inv_r, Qmult_1_r in Hle.
  - exact Hle.
  - intro H0. rewrite H0 in Hb. exact (Qlt_irrefl _ Hb).
Qed.

(** C1. Whenever [clean_text] returns, the returned text is at least
    [trim_limit] times as long as the input, or it is the input itself;
    this holds for the default limit 0.05 and for every other limit. *)
Theorem clean_text_trim_limit (er : string) (trim_limit : Q) (out : string) :
  clean_text er trim_limit = Return out ->
  (trim_limit * len er <= len out)%Q \/ out = er.
Proof.
  unfold clean_text. intro H.
  destruct (Nat.eqb (String.length er) 0) eqn:Hlen; [discriminate H|].
  injection H as <-.
  destruct (Qle_bool trim_limit _) eqn:Hratio; [left|right; reflexivity].
  apply Qle_bool_iff in Hratio.
  apply ratio_bound; [|exact Hratio].
  apply len_pos. intro He. apply length_zero_empty in He.
  rewrite He in Hlen. discriminate Hlen.
Qed.

Lemma clean_text_trim_limit_witness :
  clean_text sample_release DEFAULT_TRIM_LIMIT
    = Return "Sales rose in the third quarter." /\
  ((DEFAULT_TRIM_LIMIT * len sample_release
      <= len "Sales rose in the third quarter.")%Q \/
   "Sales rose in the third quarter." = sample_release).
Proof.
  split; [vm_compute; reflexivity|].
  apply (clean_text_trim_limit sample_release DEFAULT_TRIM_LIMIT).
  vm_compute. reflexivity.
Defined.

(** C10. [clean_text] raises, and then it is the division by zero, exactly
    on the empty input; on every other input it returns a string. *)
Theorem clean_text_raises_iff_empty (er : string) (trim_limit : Q) :
  match clean_text er trim_limit with
  | Raise e => e = ZeroDivisionError /\ er = ""
  | Return _ => er <> ""
  end.
Proof.
  unfold clean_text.
  destruct (Nat.eqb (String.length er) 0) eqn:Hlen.
  - apply Nat.eqb_eq in Hlen. apply length_zero_empty in Hlen. auto.
  - intro He. rewrite He in Hlen. discriminate Hlen.
Qed.

(** ** Noise filter: which blocks are retained *)

Lemma search_none_here (p : pattern) (before : option ascii) (s : string) :
  search_from p before s = None -> match_here p before s = None.
Proof.
  destruct s; simpl; destruct (match_here p before _); congruence.
Qed.

(** Where [re.search] finds nothing, [re.sub] changes nothing. *)
Lemma sub_from_no_match (p : pattern) (s : string) (before : option ascii) :
  search_from p before s = None -> sub_from p before s 0 = s.
Proof.
  revert before. induction s as [|c s IH]; intros before Hnone.
  - reflexivity.
  - pose proof (search_none_here _ _ _ Hnone) as Hhere.
    simpl in Hnone. rewrite Hhere in Hnone.
    simpl. unfold match_len. rewrite Hhere. simpl.
    rewrite (IH _ Hnone). reflexivity.
Qed.

(** Inside a match that runs to the end of the text nothing is kept. *)
Lemma sub_from_skip_all (p : pattern) (s : string) (before : option ascii)
    (skip : nat) :
  String.length s <= skip -> sub_from p before s skip = "".
Proof.
  revert before skip. induction s as [|c s IH]; intros before skip Hlen.
  - reflexivity.
  - destruct skip as [|skip]; simpl in Hlen; [lia|].
    simpl. apply IH. lia.
Qed.

Lemma re_sub_empty_unfired (p : pattern) (block : string) :
  fires p block = false -> re_sub_empty p block = block.
Proof.
  unfold fires, re_search, re_sub_empty. intro H.
  apply sub_from_no_match.
  destruct (search_from p None block); [discriminate H|reflexivity].
Qed.

Lemma re_sub_empty_covered (p : pattern) (block : string) :
  covers p block = true -> re_sub_empty p block = "".
Proof.
  unfold covers, re_sub_empty. intro H.
  destruct block as [|c block]; [reflexivity|].
  simpl. destruct (match_len p None (String c block)) as [n|]; [|discriminate H].
  apply Nat.eqb_eq in H. subst n. simpl.
  apply sub_from_skip_all. lia.
Qed.

Lemma all_nonzero_unfired (block : string) (patterns : list (string * pattern)) :
  block <> "" ->
  forallb (fun named => negb (fires (snd named) block)) patterns = true ->
  all_nonzero block patterns = true.
Proof.
  intros Hne. unfold all_nonzero.
  induction patterns as [|[name p] patterns IH]; simpl; [reflexivity|].
  intro H. apply andb_prop in H. destruct H as [Hp Hrest].
  apply negb_true_iff in Hp.
  unfold regex_sub at 1. rewrite (re_sub_empty_unfired p block Hp).
  rewrite (IH Hrest), andb_true_r.
  destruct block; [contradiction|reflexivity].
Qed.

Lemma all_nonzero_covered (block : string) (patterns : list (string * pattern)) :
  existsb (fun named => covers (snd named) block) patterns = true ->
  all_nonzero block patterns = false.
Proof.
  unfold all_nonzero.
  induction patterns as [|[name p] patterns IH]; simpl; [discriminate|].
  intro H. apply orb_prop in H. destruct H as [Hp|Hrest].
  - unfold regex_sub at 1. rewrite (re_sub_empty_covered p block Hp).
    reflexivity.
  - rewrite (IH Hrest). apply andb_false_r.
Qed.

(** C2, refuted by the code.  The predicate 'COMPANY INFO2' matches the
    block [company_paragraph], from its start to the words [is a]; the
    pattern has no [.+] at its end, so the deletion of the match leaves
    [ leader], the length of what is left is not zero, and the block is
    retained whole, where the claim has it dropped.  [clean_text] returns
    the paragraph as it was. *)
Theorem clean_text_helper_keeps_matched_block :
  In ("COMPANY INFO2", COMPANY_INFO2) PATTERNS /\
  fires COMPANY_INFO2 company_paragraph = true /\
  re_sub_empty COMPANY_INFO2 company_paragraph = " leader" /\
  clean_text_helper company_paragraph = true /\
  clean_text company_paragraph DEFAULT_TRIM_LIMIT = Return company_paragraph.
Proof.
  split; [unfold PATTERNS, COMPANY_INFO2; simpl; tauto|].
  vm_compute. repeat split; reflexivity.
Qed.

(** ** Return classifier *)

Lemma Qlt_bool_iff (a b : Q) : Qlt_bool a b = true <-> (a < b)%Q.
Proof.
  unfold Qlt_bool. rewrite negb_true_iff.
  split; intro H.
  - apply Qnot_le_lt. intro Hle. apply Qle_bool_iff in Hle. congruence.
  - destruct (Qle_bool b a) eqn:E; [|reflexivity].
    apply Qle_bool_iff in E. exfalso. exact (Qlt_not_le _ _ H E).
Qed.

(** The source writes the lower boundary as [-1*limit]; it compares like
    [-limit]. *)
Lemma lt_minus_one_times (x limit : pyfloat) :
  Float.lt x (Float.mul (Fin (-1)) limit) = Float.lt x (Float.neg limit).
Proof.
  destruct limit as [|neg|q]; destruct x as [|neg'|a]; simpl; try reflexivity.
  all: destruct neg; reflexivity.
Qed.

(** C4. With two classes the label is negative exactly when the cumulative
    return is below the limit and positive otherwise, whatever the price
    window; 0.04 against 0.05 is negative and 0.06 is positive. *)
Theorem classify_two_class :
  (forall cum limit : pyfloat,
     sentiment 2 cum limit
       = Return (if Float.lt cum limit then neg_label else pos_label)) /\
  (forall BDay_add DatetimeIndex_B Equity Equity_of historical_Close
          EQUITIES symbol timestamp timespan adjust_delay limit,
     fst (classify BDay_add DatetimeIndex_B Equity Equity_of historical_Close
                   EQUITIES symbol timestamp timespan 2 adjust_delay limit)
       = (cum ← cum_returns
                  (close_prices BDay_add DatetimeIndex_B Equity
                     historical_Close
                     (fst (lookup_equity Equity Equity_of EQUITIES symbol))
                     timestamp timespan adjust_delay);
          Return (if Float.lt cum limit then neg_label else pos_label))) /\
  sentiment 2 (Fin 0.04) (Fin 0.05) = Return neg_label /\
  sentiment 2 (Fin 0.06) (Fin 0.05) = Return pos_label /\
  neg_label <> pos_label.
Proof.
  split; [reflexivity|]. split.
  - intros. unfold classify. simpl.
    destruct (lookup_equity _ _ _ _) as [equity EQUITIES']. reflexivity.
  - repeat split; discriminate.
Qed.

Lemma lt_limit_exclusive (cum limit : pyfloat) :
  Float.lt limit (Fin 0) = false ->
  Float.lt cum (Float.neg limit) = true ->
  Float.gt cum limit = false.
Proof.
  unfold Float.gt.
  destruct limit as [|neg|q]; destruct cum as [|neg'|a]; simpl;
    try discriminate; try reflexivity.
  all: try (destruct neg; simpl; intros; congruence).
  all: try (destruct neg'; simpl; intros; congruence).
  intros Hq Ha.
  destruct (Qlt_bool q a) eqn:Hqa; [|reflexivity].
  apply Qlt_bool_iff in Ha, Hqa.
  assert (Hq0 : ~ (q < 0)%Q).
  { intro H. apply Qlt_bool_iff in H. congruence. }
  exfalso. lra.
Qed.

(** C5. With three classes and a limit that is not negative, the label is
    negative exactly when the cumulative return is below [-limit], positive
    exactly when it is above [limit] and neutral otherwise; with the limit
    0.05 the returns 0.10, -0.10 and 0 are positive, negative and neutral. *)
Theorem classify_three_class :
  (forall cum limit : pyfloat,
     Float.lt limit (Fin 0) = false ->
     (sentiment 3 cum limit = Return neg_label
        <-> Float.lt cum (Float.neg limit) = true) /\
     (sentiment 3 cum limit = Return pos_label <-> Float.gt cum limit = true) /\
     (sentiment 3 cum limit = Return neut_label
        <-> Float.lt cum (Float.neg limit) = false /\
            Float.gt cum limit = false)) /\
  (forall BDay_add DatetimeIndex_B Equity Equity_of historical_Close
          EQUITIES symbol timestamp timespan adjust_delay limit,
     fst (classify BDay_add DatetimeIndex_B Equity Equity_of historical_Close
                   EQUITIES symbol timestamp timespan 3 adjust_delay limit)
       = (cum ← cum_returns
                  (close_prices BDay_add DatetimeIndex_B Equity
                     historical_Close
                     (fst (lookup_equity Equity Equity_of EQUITIES symbol))
                     timestamp timespan adjust_delay);
          sentiment 3 cum limit)) /\
  sentiment 3 (Fin 0.10) (Fin 0.05) = Return pos_label /\
  sentiment 3 (Fin (-0.10)) (Fin 0.05) = Return neg_label /\
  sentiment 3 (Fin 0) (Fin 0.05) = Return neut_label.
Proof.
  split; [|split; [|repeat split; reflexivity]];
    [|intros; unfold classify; simpl;
      destruct (lookup_equity _ _ _ _) as [equity EQUITIES']; reflexivity].
  intros cum limit Hlimit.
  pose proof (lt_limit_exclusive cum limit Hlimit) as Hexcl.
  unfold sentiment. simpl Nat.eqb. cbv iota.
  rewrite lt_minus_one_times.
  destruct (Float.lt cum (Float.neg limit)) eqn:Hlow.
  - rewrite (Hexcl eq_refl). intuition (reflexivity || discriminate).
  - destruct (Float.gt cum limit) eqn:Hhigh;
      intuition (reflexivity || discriminate).
Qed.

Lemma classify_three_class_witness :
  Float.lt (Fin 0.05) (Fin 0) = false /\
  (sentiment 3 (Fin 0.10) (Fin 0.05) = Return pos_label
     <-> Float.gt (Fin 0.10) (Fin 0.05) = true).
Proof.
  split; [reflexivity|].
  apply (proj1 classify_three_class (Fin 0.10) (Fin 0.05)). reflexivity.
Defined.

(** C5, as stated, fails for a negative limit: the return 0 is above the
    limit -0.05 and the label is negative all the same. *)
Lemma classify_three_class_negative_limit :
  Float.gt (Fin 0) (Fin (-0.05)) = true /\
  sentiment 3 (Fin 0) (Fin (-0.05)) = Return neg_label /\
  neg_label <> pos_label.
Proof. repeat split; discriminate. Qed.

(** *** The cumulative return *)

Lemma pad_from_finite (previous : pyfloat) (ps : list Q) :
  pad_from previous (map Fin ps) = map Fin ps.
Proof.
  revert previous. induction ps as [|p ps IH]; intro previous; simpl.
  - reflexivity.
  - rewrite IH. reflexivity.
Qed.

Lemma last_item_cons (x y : pyfloat) (xs : list pyfloat) :
  last_item (x :: y :: xs) = last_item (y :: xs).
Proof.
  unfold last_item. simpl.
  destruct (rev xs) as [|z zs]; reflexivity.
Qed.

Lemma last_cons_default (p d : Q) (ps : list Q) :
  List.last (p :: ps) d = List.last ps p.
Proof.
  revert p d. induction ps as [|q ps IH]; intros p d.
  - reflexivity.
  - change (List.last (q :: ps) d = List.last (q :: ps) p).
    rewrite !IH. reflexivity.
Qed.

Lemma Qpos_nonzero (q : Q) : (0 < q)%Q -> ~ (q == 0)%Q.
Proof. intros Hq H0. rewrite H0 in Hq. exact (Qlt_irrefl _ Hq). Qed.

Lemma Qpos_eq_bool (q : Q) : (0 < q)%Q -> Qeq_bool q 0 = false.
Proof.
  intro Hq. destruct (Qeq_bool q 0) eqn:E; [|reflexivity].
  apply Qeq_bool_iff in E. exfalso. exact (Qpos_nonzero q Hq E).
Qed.

(** In exact arithmetic the growth factors telescope: their product is the
    last close over the close before the window. *)
Lemma compounded_telescopes (ps : list Q) (previous : Q) :
  (0 < previous)%Q -> Forall (fun p => (0 < p)%Q) ps ->
  (compounded_return (simple_returns previous ps)
     == List.last ps previous / previous - 1)%Q.
Proof.
  unfold compounded_return.
  revert previous. induction ps as [|p ps IH]; intros previous Hprev Hps.
  - simpl. field. apply Qpos_nonzero. exact Hprev.
  - inversion Hps as [|p' ps' Hp Hps' Heq]; subst.
    rewrite last_cons_default. simpl.
    specialize (IH p Hp Hps').
    assert (Hg : (fold_right (fun r acc => (1 + r) * acc) 1
                    (simple_returns p ps) == List.last ps p / p)%Q).
    { rewrite <- (Qplus_0_r (List.last ps p / p)), <- (Qplus_opp_r 1).
      rewrite Qplus_assoc, (Qplus_comm _ 1), <- Qplus_assoc, (Qplus_comm 1).
      rewrite <- IH. ring. }
    rewrite Hg. field.
    split; apply Qpos_nonzero; assumption.
Qed.

(** Rounding on known doubles: 0.1 is 0x1.999999999999ap-4; a tie goes to
    the even significand; the largest double is left as it is and half a
    unit in the last place above it overflows; 2^-1074 is the smallest
    double and half of it goes to zero. *)
Lemma round_known_doubles :
  Float.round (Fin 0.1) = Fin (7205759403792794 # 72057594037927936) /\
  Float.round (Fin (inject_Z (2 ^ 53 + 1))) = Fin (inject_Z (2 ^ 53)) /\
  Float.round (Fin (inject_Z (2 ^ 53 + 3))) = Fin (inject_Z (2 ^ 53 + 4)) /\
  Float.round (Fin (inject_Z (2 ^ 1024 - 2 ^ 971)))
    = Fin (inject_Z (2 ^ 1024 - 2 ^ 971)) /\
  Float.round (Fin (inject_Z (2 ^ 1024 - 2 ^ 970))) = Inf false /\
  Float.round (Fin (- inject_Z (2 ^ 1024))) = Inf true /\
  Float.round (Fin (1 # 2 ^ 1074)) = Fin (1 # 2 ^ 1074) /\
  Float.round (Fin (1 # 2 ^ 1075)) = Fin (0 # 2 ^ 1074) /\
  Float.round (Fin (3 # 2 ^ 1075)) = Fin (2 # 2 ^ 1074).
Proof. vm_compute. repeat split; reflexivity. Qed.

(** Rounding is symmetric, so that the product [-1*limit] of [sentiment]
    is exact on a double. *)
Lemma minus_one_times_exact (limit : pyfloat) :
  Float.round limit = limit ->
  Float.fmul (Fin (-1)) limit = Float.mul (Fin (-1)) limit.
Proof.
  unfold Float.fmul.
  destruct limit as [|s|[[|n|n] d]]; try reflexivity; intro H.
  - injection H as <-. reflexivity.
  - change (Float.neg (Float.round (Fin (Zpos n # d)))
            = Float.neg (Fin (Zpos n # d))).
    rewrite H. reflexivity.
  - change (Float.round_pos n d = Fin (Zpos n # d)).
    change (Float.neg (Float.round_pos n d) = Fin (Zneg n # d)) in H.
    destruct (Float.round_pos n d) as [|s|[m e]]; try discriminate H.
    cbn [Float.neg Qopp Qnum Qden] in H.
    injection H as Hm He. subst e. f_equal. f_equal. lia.
Qed.

(** Rounding makes no value missing and leaves missing values missing. *)
Lemma isnan_round (x : pyfloat) : isnan (Float.round x) = isnan x.
Proof.
  destruct x as [| |q]; try reflexivity.
  unfold Float.round. destruct (Qnum q) as [|n|n]; [reflexivity| |];
    unfold Float.round_pos; cbv zeta;
    match goal with
    | |- context [if ?c then Inf false else _] => destruct c
    end; reflexivity.
Qed.

Lemma isnan_less_one (x : pyfloat) :
  isnan x = false -> isnan (Float.fsub x (Fin 1)) = false.
Proof.
  intro H. unfold Float.fsub. rewrite isnan_round.
  destruct x; [discriminate H|reflexivity..].
Qed.

Lemma isnan_one_plus (x : pyfloat) :
  isnan x = false -> isnan (Float.fadd (Fin 1) x) = false.
Proof.
  intro H. unfold Float.fadd. rewrite isnan_round.
  destruct x; [discriminate H|reflexivity..].
Qed.

(** The growth factor [1 + (p / previous - 1)] over a close that is not
    zero is a number: a quotient that overflows is an infinity. *)
Lemma growth_not_nan (p previous : Q) :
  Qeq_bool previous 0 = false ->
  isnan (Float.fadd (Fin 1)
           (Float.fsub (Float.fdiv (Fin p) (Fin previous)) (Fin 1))) = false.
Proof.
  intro H. apply isnan_one_plus, isnan_less_one.
  unfold Float.fdiv. rewrite isnan_round.
  unfold Float.div. rewrite H. reflexivity.
Qed.

Lemma pct_from_returns (previous : pyfloat) (ps : list pyfloat) :
  pct_from previous ps = simple_returns_fl previous ps.
Proof.
  revert previous. induction ps as [|p ps IH]; intro previous; [reflexivity|].
  cbn [pct_from simple_returns_fl]. rewrite IH. reflexivity.
Qed.

Lemma growth_factors_not_nan (ps : list Q) (previous : Q) :
  (0 < previous)%Q -> Forall (fun p => (0 < p)%Q) ps ->
  Forall (fun x => isnan x = false)
         (map (fun r => Float.fadd (Fin 1) r)
              (pct_from (Fin previous) (map Fin ps))).
Proof.
  revert previous. induction ps as [|p ps IH]; intros previous Hprev Hps.
  - constructor.
  - inversion Hps as [|p' ps' Hp Hps' Heq]; subst.
    cbn [map pct_from]. constructor.
    + apply growth_not_nan, Qpos_eq_bool. exact Hprev.
    + apply IH; assumption.
Qed.

Lemma last_item_tail (x : pyfloat) (xs : list pyfloat) :
  xs <> [] -> last_item (x :: xs) = last_item xs.
Proof.
  destruct xs as [|y xs]; [contradiction|]. intros _. apply last_item_cons.
Qed.

(** Over factors none of which is missing, the last entry of the running
    product is the product of all of them, taken in order. *)
Lemma cumprod_fold (xs : list pyfloat) (acc : pyfloat) :
  Forall (fun x => isnan x = false) xs -> xs <> [] ->
  last_item (map (fun x => Float.fsub x (Fin 1)) (cumprod_from acc xs))
    = Return (Float.fsub (fold_left Float.fmul xs acc) (Fin 1)).
Proof.
  revert acc. induction xs as [|x xs IH]; intros acc Hxs Hne;
    [contradiction|].
  inversion Hxs as [|x' xs' Hx Hxs' Heq]; subst.
  cbn [cumprod_from fold_left]. rewrite Hx. cbv zeta. cbn [map].
  destruct xs as [|y ys]; [reflexivity|].
  rewrite last_item_tail.
  - apply IH; [exact Hxs'|discriminate].
  - inversion Hxs' as [|y' ys' Hy _ Heq]; subst.
    cbn [cumprod_from]. rewrite Hy. discriminate.
Qed.

Lemma fold_growth (rs : list pyfloat) (acc : pyfloat) :
  fold_left Float.fmul (map (fun r => Float.fadd (Fin 1) r) rs) acc
    = fold_left (fun acc r => Float.fmul acc (Float.fadd (Fin 1) r)) rs acc.
Proof.
  revert acc. induction rs as [|r rs IH]; intro acc; [reflexivity|].
  cbn [map fold_left]. apply IH.
Qed.

(** The pipeline of [classify] on a complete window: the first entry of
    [pct_change] is missing and the running product passes over it. *)
Lemma cum_returns_window (p1 : Q) (ps : list Q) :
  (0 < p1)%Q -> Forall (fun p => (0 < p)%Q) ps -> ps <> [] ->
  cum_returns (map Fin (p1 :: ps))
    = Return (compounded_return_fl
                (simple_returns_fl (Fin p1) (map Fin ps))).
Proof.
  intros Hp1 Hps Hne.
  unfold cum_returns, pct_change, cumprod. rewrite pad_from_finite.
  change (pct_from NaN (map Fin (p1 :: ps)))
    with (NaN :: pct_from (Fin p1) (map Fin ps)).
  change (cumprod_from (Fin 1)
            (map (fun r => Float.fadd (Fin 1) r)
                 (NaN :: pct_from (Fin p1) (map Fin ps))))
    with (NaN :: cumprod_from (Fin 1)
                   (map (fun r => Float.fadd (Fin 1) r)
                        (pct_from (Fin p1) (map Fin ps)))).
  cbn [map]. rewrite last_item_tail.
  - rewrite cumprod_fold.
    + rewrite fold_growth, pct_from_returns. reflexivity.
    + apply growth_factors_not_nan; assumption.
    + destruct ps; [contradiction|discriminate].
  - destruct ps as [|p ps]; [contradiction|].
    inversion Hps as [|p' ps' Hp _ Heq]; subst.
    cbn [map pct_from cumprod_from].
    rewrite (growth_not_nan p p1 (Qpos_eq_bool p1 Hp1)). discriminate.
Qed.

(** C9, as stated, fails on doubles: with the closes 100, 102, 105 the
    cumulative return of [classify] is 0.04999999999999982, while the
    change from the first close to the last, 105/100 - 1, is
    0.050000000000000044 in double precision and 0.05 exactly.  The label
    changes with it: under the limit 0.05 the closes 100, 102, 105 are
    neutral (negative with two classes) and the closes 100, 101, 105, with
    the same first and last close, are positive. *)
Lemma cum_returns_not_first_last :
  cum_returns [Fin 100; Fin 102; Fin 105]
    = Return (Fin (7205759403792768 # 144115188075855872)) /\
  first_last_return_fl (Fin 100) (Fin 105)
    = Fin (7205759403792800 # 144115188075855872) /\
  (7205759403792768 # 144115188075855872 < 0.05)%Q /\
  (0.05 < 7205759403792800 # 144115188075855872)%Q /\
  cum_returns [Fin 100; Fin 101; Fin 105]
    = Return (Fin (7205759403792800 # 144115188075855872)) /\
  label_of [100; 102; 105]%Q 3 (Float.round (Fin LIMIT)) = Return neut_label /\
  label_of [100; 101; 105]%Q 3 (Float.round (Fin LIMIT)) = Return pos_label /\
  label_of [100; 102; 105]%Q 2 (Float.round (Fin LIMIT)) = Return neg_label /\
  label_of [100; 101; 105]%Q 2 (Float.round (Fin LIMIT)) = Return pos_label.
Proof. vm_compute. repeat split; reflexivity. Qed.

(** C9, amended.  On a complete window of at least two strictly positive
    closes the cumulative return of [classify] is the compounded product of
    the growth factors [1 + r_i] less one, over the simple period returns
    [r_i = p_i / p_(i-1) - 1] between consecutive closes, every operation in
    double precision and in window order, and [classify] labels the window
    by this number.  In exact arithmetic the product less one is the last
    close over the first less one.  It is not the sum of the returns: on the
    window 100, 110, 121 it is 0.2100000000000002 and the sum is
    0.20000000000000018. *)
Theorem cum_returns_compounded :
  (forall (p1 : Q) (ps : list Q),
     (0 < p1)%Q -> Forall (fun p => (0 < p)%Q) ps -> ps <> [] ->
     cum_returns (map Fin (p1 :: ps))
       = Return (compounded_return_fl
                   (simple_returns_fl (Fin p1) (map Fin ps)))) /\
  (forall BDay_add DatetimeIndex_B Equity Equity_of historical_Close
          EQUITIES symbol timestamp timespan num_class adjust_delay limit
          (p1 : Q) (ps : list Q),
     close_prices BDay_add DatetimeIndex_B Equity historical_Close
       (fst (lookup_equity Equity Equity_of EQUITIES symbol))
       timestamp timespan adjust_delay = map Fin (p1 :: ps) ->
     (0 < p1)%Q -> Forall (fun p => (0 < p)%Q) ps -> ps <> [] ->
     Nat.eqb num_class 2 || Nat.eqb num_class 3 = true ->
     fst (classify BDay_add DatetimeIndex_B Equity Equity_of historical_Close
                   EQUITIES symbol timestamp timespan num_class adjust_delay
                   limit)
       = sentiment num_class
           (compounded_return_fl (simple_returns_fl (Fin p1) (map Fin ps)))
           limit) /\
  (forall (p1 : Q) (ps : list Q),
     (0 < p1)%Q -> Forall (fun p => (0 < p)%Q) ps ->
     (compounded_return (simple_returns p1 ps)
        == List.last ps p1 / p1 - 1)%Q) /\
  cum_returns [Fin 100; Fin 110; Fin 121]
    = Return (Fin (7566047373982440 # 36028797018963968)) /\
  summed_return_fl (simple_returns_fl (Fin 100) [Fin 110; Fin 121])
    = Fin (7205759403792800 # 36028797018963968).
Proof.
  split; [exact cum_returns_window|]. split; [|split].
  - intros BDay_add DatetimeIndex_B Equity Equity_of historical_Close
           EQUITIES symbol timestamp timespan num_class adjust_delay limit
           p1 ps Hwin Hp1 Hps Hne Hn.
    unfold classify. rewrite Hn.
    destruct (lookup_equity _ _ _ _) as [equity EQUITIES'].
    cbn [fst] in Hwin |- *. rewrite Hwin.
    rewrite (cum_returns_window p1 ps Hp1 Hps Hne). reflexivity.
  - intros p1 ps. apply compounded_telescopes.
  - vm_compute. split; reflexivity.
Qed.

Lemma cum_returns_compounded_witness :
  cum_returns (map Fin [100; 110; 121]%Q)
    = Return (compounded_return_fl
                (simple_returns_fl (Fin 100) (map Fin [110; 121]%Q))).
Proof.
  apply (proj1 cum_returns_compounded 100%Q [110; 121]%Q).
  - reflexivity.
  - repeat constructor.
  - discriminate.
Defined.

(** ** Exhibit locator *)

Lemma er_loop_cons (st : er_state) (line : string) (lines : list string) :
  er_loop st (line :: lines) =
    let st' := er_flags st line in
    let yielded := if return_line st' then [line] else [] in
    if er_break st' line then (yielded, lines)
    else (yielded ++ fst (er_loop st' lines), snd (er_loop st' lines)).
Proof.
  simpl. destruct (er_break _ _); [reflexivity|].
  destruct (er_loop _ lines). reflexivity.
Qed.

(** Once the exhibit has started, a line only adds to [return_line]. *)
Lemma er_flags_started (emitting : bool) (line : string) :
  er_flags (ErState true emitting) line =
    ErState true (Str.contains TEXT_OPEN line || emitting).
Proof.
  unfold er_flags. simpl.
  destruct (Str.contains TEXT_OPEN line), emitting; reflexivity.
Qed.

Lemma er_flags_marker (line : string) :
  Str.contains EX99_MARKER line = true ->
  er_flags (ErState false false) line =
    ErState true (Str.contains TEXT_OPEN line).
Proof.
  intro H. unfold er_flags. simpl. rewrite H. simpl.
  destruct (Str.contains TEXT_OPEN line); reflexivity.
Qed.

Lemma er_loop_marker (line : string) (lines : list string) :
  Str.contains EX99_MARKER line = true ->
  Str.contains TEXT_OPEN line = false ->
  Str.contains TEXT_CLOSE line = false ->
  er_loop (ErState false false) (line :: lines) =
    er_loop (ErState true false) lines.
Proof.
  intros Hm Ho Hc. rewrite er_loop_cons, (er_flags_marker line Hm), Ho.
  unfold er_break. rewrite Hc. simpl.
  destruct (er_loop _ lines). reflexivity.
Qed.

(** A line inside the exhibit that does not close it is yielded, if the
    text body is open or the line opens it, and the scan goes on. *)
Lemma er_loop_inside (emitting : bool) (line : string) (lines : list string) :
  Str.contains TEXT_OPEN line || emitting = true ->
  Str.contains TEXT_CLOSE line = false ->
  er_loop (ErState true emitting) (line :: lines) =
    (line :: fst (er_loop (ErState true true) lines),
     snd (er_loop (ErState true true) lines)).
Proof.
  intros Ho Hc. rewrite er_loop_cons, er_flags_started, Ho.
  unfold er_break. rewrite Hc. reflexivity.
Qed.

Lemma er_loop_close (line : string) (lines : list string) :
  Str.contains TEXT_CLOSE line = true ->
  er_loop (ErState true true) (line :: lines) = ([line], lines).
Proof.
  intro Hc. rewrite er_loop_cons, er_flags_started, orb_true_r.
  unfold er_break. rewrite Hc. reflexivity.
Qed.

(** C7. On a stream made of an EX-99 marker line, a [<TEXT>] line, three
    body lines and a [</TEXT>] line, each carrying no other text-body
    marker that would open or close the exhibit sooner, the locator yields
    exactly the five lines from the open marker to the close marker and
    reads nothing after the close marker. *)
Theorem er_generator_first_exhibit
    (marker opening b1 b2 b3 closing : string) (rest : list string) :
  Str.contains EX99_MARKER marker = true ->
  Str.contains TEXT_OPEN marker = false ->
  Str.contains TEXT_CLOSE marker = false ->
  Str.contains TEXT_OPEN opening = true ->
  Str.contains TEXT_CLOSE opening = false ->
  Str.contains TEXT_CLOSE b1 = false ->
  Str.contains TEXT_CLOSE b2 = false ->
  Str.contains TEXT_CLOSE b3 = false ->
  Str.contains TEXT_CLOSE closing = true ->
  er_generator (marker :: opening :: b1 :: b2 :: b3 :: closing :: rest)
    = ([opening; b1; b2; b3; closing], rest).
Proof.
  intros Hm Hmo Hmc Ho Hoc H1 H2 H3 Hc.
  unfold er_generator.
  rewrite (er_loop_marker marker) by assumption.
  rewrite (er_loop_inside false opening) by (rewrite ?Ho; auto).
  rewrite (er_loop_inside true b1), (er_loop_inside true b2),
    (er_loop_inside true b3) by (auto using orb_true_r).
  rewrite (er_loop_close closing) by assumption. reflexivity.
Qed.

Lemma er_generator_first_exhibit_witness :
  er_generator [text_line "<TYPE>EX-99.1"; text_line "<TEXT>"; text_line "Acme Corp";
                text_line "reports third quarter"; text_line "results.";
                text_line "</TEXT>"; text_line "<TYPE>EX-99.2"; text_line "<TEXT>"]
    = ([text_line "<TEXT>"; text_line "Acme Corp"; text_line "reports third quarter";
        text_line "results."; text_line "</TEXT>"],
       [text_line "<TYPE>EX-99.2"; text_line "<TEXT>"]).
Proof.
  apply er_generator_first_exhibit; vm_compute; reflexivity.
Defined.

(** Without an exhibit marker nothing stops the scan: once emitting, every
    remaining line is yielded and the stream is read to its end. *)
Lemma er_loop_fallback_emitting (lines : list string) :
  Forall (fun l => Str.contains EX99_MARKER l = false) lines ->
  er_loop (ErState false true) lines = (lines, []).
Proof.
  induction 1 as [|line lines Hline _ IH]; [reflexivity|].
  rewrite er_loop_cons.
  assert (Hst : er_flags (ErState false true) line = ErState false true).
  { unfold er_flags. simpl. rewrite Hline.
    destruct (is_match _); reflexivity. }
  rewrite Hst. unfold er_break. simpl. rewrite andb_false_r, IH. reflexivity.
Qed.

(** C8. On a stream without an EX-99 marker line the locator never stops at
    a close marker: if a line matches the earnings-announcement pattern, the
    output is the stream from some line at or before it (the first matching
    line) to the end of the stream, so it holds that line and every later
    one, and every line has been read. *)
Theorem er_generator_fallback
    (before : list string) (line : string) (after : list string) :
  Forall (fun l => Str.contains EX99_MARKER l = false)
         (before ++ line :: after) ->
  is_match (re_search ANNOUNCEMENT_PATTERN line) = true ->
  exists k : nat,
    k <= length before /\
    er_generator (before ++ line :: after)
      = (skipn k before ++ line :: after, []).
Proof.
  intros Hno Hline. unfold er_generator.
  induction before as [|l before IH].
  - exists 0. split; [reflexivity|]. simpl app in *.
    inversion Hno as [|x xs Hx Hxs]; subst.
    rewrite er_loop_cons.
    assert (Hst : er_flags (ErState false false) line = ErState false true).
    { unfold er_flags. simpl. rewrite Hx, Hline. reflexivity. }
    rewrite Hst. unfold er_break. simpl. rewrite andb_false_r.
    rewrite (er_loop_fallback_emitting after Hxs). reflexivity.
  - simpl app in Hno. inversion Hno as [|x xs Hx Hxs]; subst.
    destruct (is_match (re_search ANNOUNCEMENT_PATTERN l)) eqn:Hl.
    + exists 0. split; [simpl; lia|].
      change ((l :: before) ++ line :: after)
        with (l :: (before ++ line :: after)).
      rewrite er_loop_cons.
      assert (Hst : er_flags (ErState false false) l = ErState false true).
      { unfold er_flags. simpl. rewrite Hx, Hl. reflexivity. }
      rewrite Hst. unfold er_break. simpl. rewrite andb_false_r.
      rewrite (er_loop_fallback_emitting _ Hxs). reflexivity.
    + destruct (IH Hxs) as [k [Hk Heq]].
      exists (S k). split; [simpl; lia|].
      change ((l :: before) ++ line :: after)
        with (l :: (before ++ line :: after)).
      rewrite er_loop_cons.
      assert (Hst : er_flags (ErState false false) l = ErState false false).
      { unfold er_flags. simpl. rewrite Hx, Hl. reflexivity. }
      rewrite Hst. unfold er_break. simpl. rewrite andb_false_r, Heq.
      reflexivity.
Qed.

Lemma er_generator_fallback_witness :
  exists k : nat,
    k <= length [text_line "FORM 8-K"] /\
    er_generator ([text_line "FORM 8-K"] ++
                  text_line "Acme reports third quarter results" ::
                  [text_line "Sales rose."; text_line "</TEXT>"; text_line "</DOCUMENT>"])
      = (skipn k [text_line "FORM 8-K"] ++
         text_line "Acme reports third quarter results" ::
         [text_line "Sales rose."; text_line "</TEXT>"; text_line "</DOCUMENT>"], []).
Proof.
  apply er_generator_fallback.
  - repeat constructor.
  - vm_compute. reflexivity.
Defined.

(** ** File discovery *)

Lemma pos_advance_over (u : string) (st : mstate) :
  pos (advance_over st u) = pos st + String.length u.
Proof.
  revert st. induction u as [|c u IH]; intro st; simpl.
  - lia.
  - rewrite IH. simpl. lia.
Qed.

Lemma groups_advance_over (u : string) (st : mstate) :
  groups (advance_over st u) = groups st.
Proof.
  revert st. induction u as [|c u IH]; intro st; simpl.
  - reflexivity.
  - rewrite IH. reflexivity.
Qed.

Lemma substring_prefix (u v : string) :
  String.substring 0 (String.length u) (u ++ v) = u.
Proof.
  induction u as [|c u IH]; simpl.
  - destruct v; reflexivity.
  - rewrite IH. reflexivity.
Qed.

(** A greedy repetition reads a run of matching characters [u] in full
    when the match can be completed from there. *)
Lemma rep_take (fl : flags) (a : atom) (u v : string) (k : cont) (x : mstate) :
  forall (lo : nat) (st : mstate),
    Str.forall_chars (atom_matches fl a) u = true ->
    rep fl a (lo - String.length u) None (advance_over st u) v k = Some x ->
    rep fl a lo None st (u ++ v) k = Some x.
Proof.
  induction u as [|c u IH]; intros lo st Hu Hrest.
  - simpl in *. rewrite Nat.sub_0_r in Hrest. exact Hrest.
  - simpl in Hu. apply andb_prop in Hu. destruct Hu as [Hc Hu].
    simpl. rewrite Hc.
    rewrite (IH (Nat.pred lo) (advance st c) Hu); [reflexivity|].
    simpl in Hrest.
    replace (Nat.pred lo - String.length u) with (lo - S (String.length u))
      by lia.
    exact Hrest.
Qed.

Lemma contains_suffix (sub u v : string) :
  Str.contains sub v = true -> Str.contains sub (u ++ v) = true.
Proof.
  intro H. induction u as [|c u IH]; simpl.
  - exact H.
  - rewrite IH. apply orb_true_r.
Qed.

(** After a date, [(.+)] runs to the end of the name and gives back the
    suffix [-8-K.txt], which the rest of the pattern then reads. *)
Lemma date_group_gives_back (start : mstate) (subject : string) (st : mstate) :
  rep flags_I Dot 0 None st "-8-K.txt"
      (fun st' s' =>
         run flags_I (lit "-8-K.txt") (close_group 2 start subject st') s' accept)
    = Some (advance_over (close_group 2 start subject st) "-8-K.txt").
Proof. reflexivity. Qed.

Lemma date_group (start : mstate) (date : string) :
  date <> "" -> Str.forall_chars not_newline date = true ->
  run flags_I (Cat (Group 2 (plus Dot)) (lit "-8-K.txt")) start
      (date ++ "-8-K.txt") accept
    = Some (advance_over
              (close_group 2 start (date ++ "-8-K.txt")
                 (advance_over start date))
              "-8-K.txt").
Proof.
  intros Hd Hn.
  change (rep flags_I Dot 1 None start (date ++ "-8-K.txt")
            (fun st' s' =>
               run flags_I (lit "-8-K.txt")
                   (close_group 2 start (date ++ "-8-K.txt") st') s' accept)
          = Some (advance_over
                    (close_group 2 start (date ++ "-8-K.txt")
                       (advance_over start date))
                    "-8-K.txt")).
  apply rep_take; [exact Hn|].
  replace (1 - String.length date) with 0
    by (destruct date; [contradiction|simpl; lia]).
  apply date_group_gives_back.
Qed.

Lemma filename_match (symbol date : string) :
  symbol <> "" -> Str.forall_chars Str.is_word symbol = true ->
  date <> "" -> Str.forall_chars not_newline date = true ->
  exists m : mstate,
    re_match FILENAME_PATTERN (symbol ++ "-" ++ date ++ "-8-K.txt") = Some m /\
    group m 1 = symbol /\ group m 2 = date.
Proof.
  intros Hs Hw Hd Hn.
  set (subject := (symbol ++ "-" ++ date ++ "-8-K.txt")%string).
  set (st0 := MState None 0 []).
  set (st1 := close_group 1 st0 subject (advance_over st0 symbol)).
  set (st2 := advance st1 "-").
  exists (advance_over
            (close_group 2 st2 (date ++ "-8-K.txt") (advance_over st2 date))
            "-8-K.txt").
  split; [|split].
  - change (rep flags_I (Word false) 1 None st0 subject
              (fun st' s' =>
                 run flags_I
                     (Cat (lit "-") (Cat (Group 2 (plus Dot)) (lit "-8-K.txt")))
                     (close_group 1 st0 subject st') s' accept)
            = Some (advance_over
                      (close_group 2 st2 (date ++ "-8-K.txt")
                         (advance_over st2 date))
                      "-8-K.txt")).
    apply rep_take; [exact Hw|].
    replace (1 - String.length symbol) with 0
      by (destruct symbol; [contradiction|simpl; lia]).
    exact (date_group st2 date Hd Hn).
  - unfold group.
    cbn [advance_over advance groups close_group find fst snd Nat.eqb].
    rewrite groups_advance_over. subst st2 st1.
    cbn [advance groups close_group find fst snd Nat.eqb].
    rewrite pos_advance_over. subst st0 subject. cbn [pos Nat.add Nat.sub].
    rewrite Nat.sub_0_r. apply substring_prefix.
  - unfold group.
    cbn [advance_over advance groups close_group find fst snd Nat.eqb pos].
    rewrite pos_advance_over.
    replace (pos st2 + String.length date - pos st2) with (String.length date)
      by lia.
    apply substring_prefix.
Qed.

(** C6, refuted by the code.  [FILENAME_PATTERN] is compiled with
    [re.IGNORECASE] and matches the name [abc-2013-01-15-8-k.txt], with the
    groups [abc] and [2013-01-15]; but the test ['8-K.txt' in name] that
    guards the match compares the case, so discovery passes the name over,
    where the claim has it accepted.  The same name with the suffix in
    upper case is listed. *)
Theorem filelistings_misses_lower_case_suffix :
  (exists m : mstate,
     re_match FILENAME_PATTERN "abc-2013-01-15-8-k.txt" = Some m /\
     group m 1 = "abc" /\ group m 2 = "2013-01-15") /\
  ends_with_8K "abc-2013-01-15-8-k.txt" = true /\
  Str.contains "8-K.txt" "abc-2013-01-15-8-k.txt" = false /\
  filename_groups "abc-2013-01-15-8-k.txt" = None /\
  filelistings sample_date_parser [("/data", "abc-2013-01-15-8-k.txt")]
    = Some ∅ /\
  filelistings sample_date_parser [("/data", "abc-2013-01-15-8-K.txt")]
    = Some {[ "abc" := [("abc", MkTimestamp 2013 1 15,
                         "/data/abc-2013-01-15-8-K.txt")] ]}.
Proof.
  split; [eexists; vm_compute; repeat split; reflexivity|].
  vm_compute. repeat split; reflexivity.
Qed.

(** ** Orchestrator: the existence guard *)

(** A filing whose entry exists under [neg] or [pos] is skipped: nothing is
    read, written or fetched. *)
Lemma parse_filing_skips
    (home : string) (markup_body : string -> option string)
    (killgremlins : string -> string)
    (BDay_add : Timestamp -> Z -> Timestamp)
    (DatetimeIndex_B : Timestamp -> nat -> list Timestamp)
    (Equity : Type) (Equity_of : string -> Equity)
    (historical_Close : Equity -> Timestamp -> pyfloat)
    (fs : filesystem) (EQUITIES : gmap string Equity)
    (symbol : string) (timestamp : Timestamp) (filepath : string) :
  is_parsed home fs (get_parsed_filename symbol timestamp) = true ->
  parse_filing home markup_body killgremlins BDay_add DatetimeIndex_B Equity
    Equity_of historical_Close (fs, EQUITIES) (symbol, timestamp, filepath)
    = Return (fs, EQUITIES).
Proof.
  intro H. unfold parse_filing. rewrite H. reflexivity.
Qed.

(** C3, on the code.  The entry of the sample filing exists under the label
    [neut]; [is_parsed] looks under [neg] and [pos] only and answers false,
    and the run processes the filing again and overwrites the entry. *)
Theorem is_parsed_misses_neut :
  sample_entry
    = path_join (CORPORA_PATH sample_home)
                [neut_label; get_parsed_filename "ABC" (MkTimestamp 2013 1 15)] /\
  path_exists sample_fs sample_entry = true /\
  is_parsed sample_home sample_fs
            (get_parsed_filename "ABC" (MkTimestamp 2013 1 15)) = false /\
  files sample_fs !! sample_entry
    = Some "An entry written by an earlier run." /\
  match sample_run sample_fs with
  | Return (fs, _) =>
      files fs !! sample_entry = Some "Acme sales rose in the third quarter."
  | Raise _ => False
  end.
Proof. vm_compute. repeat split; reflexivity. Qed.

(** * Further properties *)

(** ** Exhibit locator: shape of the output *)

Lemma er_flags_keeps_started (st : er_state) (l : string) :
  start_marker_found st = true -> start_marker_found (er_flags st l) = true.
Proof.
  destruct st as [started emitting]. simpl. intros ->.
  rewrite er_flags_started. reflexivity.
Qed.

Lemma er_flags_keeps_emitting (st : er_state) (l : string) :
  return_line st = true -> return_line (er_flags st l) = true.
Proof.
  destruct st as [started emitting]. simpl. intros ->.
  unfold er_flags. simpl.
  destruct started; simpl.
  - destruct (Str.contains TEXT_OPEN l); reflexivity.
  - destruct (Str.contains EX99_MARKER l); simpl.
    + destruct (Str.contains TEXT_OPEN l); reflexivity.
    + destruct (is_match _); reflexivity.
Qed.

Lemma er_flags_marker_starts (st : er_state) (l : string) :
  Str.contains EX99_MARKER l = true ->
  start_marker_found (er_flags st l) = true.
Proof.
  intro H. destruct st as [[|] emitting].
  - rewrite er_flags_started. reflexivity.
  - unfold er_flags. simpl. rewrite H. simpl.
    destruct (Str.contains TEXT_OPEN l); reflexivity.
Qed.

(** Once emitting, the locator yields every line it reads. *)
Lemma er_loop_emitting_splits (lines : list string) (st : er_state) :
  return_line st = true ->
  lines = fst (er_loop st lines) ++ snd (er_loop st lines).
Proof.
  revert st. induction lines as [|l lines IH]; intros st Hst; [reflexivity|].
  rewrite er_loop_cons.
  pose proof (er_flags_keeps_emitting st l Hst) as Hst'.
  cbv zeta. rewrite Hst'.
  destruct (er_break _ l); simpl; [reflexivity|].
  rewrite <- (IH _ Hst'). reflexivity.
Qed.

Lemma er_loop_contiguous (lines : list string) (st : er_state) :
  exists skipped : list string,
    lines = skipped ++ fst (er_loop st lines) ++ snd (er_loop st lines).
Proof.
  revert st. induction lines as [|l lines IH]; intro st.
  - exists []. reflexivity.
  - destruct (return_line (er_flags st l)) eqn:Hemit.
    + exists []. rewrite er_loop_cons. cbv zeta. rewrite Hemit.
      destruct (er_break _ l); simpl; [reflexivity|].
      rewrite <- (er_loop_emitting_splits lines _ Hemit). reflexivity.
    + rewrite er_loop_cons. cbv zeta. rewrite Hemit.
      destruct (er_break _ l); simpl.
      * exists [l]. reflexivity.
      * destruct (IH (er_flags st l)) as [skipped Hsk].
        exists (l :: skipped). simpl. rewrite <- Hsk. reflexivity.
Qed.

(** X1. The lines the locator yields are one contiguous run of the stream:
    the stream is some skipped lines, then the yielded lines, then the
    lines never read; nothing is reordered, repeated or dropped inside the
    exhibit. *)
Theorem er_generator_contiguous (lines : list string) :
  exists skipped : list string,
    lines = skipped ++ fst (er_generator lines) ++ snd (er_generator lines).
Proof. apply er_loop_contiguous. Qed.

(** X2. A stream in which no line carries the EX-99 marker and no line
    matches the announcement pattern yields nothing, and is read to its
    end. *)
Theorem er_generator_absent (lines : list string) :
  Forall (fun l => Str.contains EX99_MARKER l = false /\
                   is_match (re_search ANNOUNCEMENT_PATTERN l) = false) lines ->
  er_generator lines = ([], []).
Proof.
  unfold er_generator.
  induction 1 as [|l lines [Hm Ha] _ IH]; [reflexivity|].
  rewrite er_loop_cons.
  assert (Hst : er_flags (ErState false false) l = ErState false false).
  { unfold er_flags. simpl. rewrite Hm, Ha. reflexivity. }
  rewrite Hst. unfold er_break. simpl. rewrite andb_false_r, IH. reflexivity.
Qed.

Lemma er_generator_absent_witness :
  er_generator [text_line "FORM 8-K"; text_line "<TEXT>";
                text_line "Item 5. Other events"; text_line "</TEXT>"]
    = ([], []).
Proof.
  apply er_generator_absent. repeat constructor.
Defined.

Lemma er_loop_stops_at_close (mid : list string) (c : string)
    (rest : list string) (st : er_state) :
  start_marker_found st = true ->
  Str.contains TEXT_CLOSE c = true ->
  exists more : list string,
    snd (er_loop st (mid ++ c :: rest)) = more ++ rest.
Proof.
  intros Hst Hc. revert st Hst.
  induction mid as [|l mid IH]; intros st Hst.
  - exists []. simpl app. rewrite er_loop_cons. cbv zeta.
    unfold er_break. rewrite Hc, (er_flags_keeps_started st c Hst).
    reflexivity.
  - change ((l :: mid) ++ c :: rest) with (l :: (mid ++ c :: rest)).
    rewrite er_loop_cons. cbv zeta.
    destruct (er_break _ l).
    + exists (mid ++ [c]). simpl. rewrite <- app_assoc. reflexivity.
    + simpl. apply IH. apply er_flags_keeps_started. exact Hst.
Qed.

(** X3. Only the first exhibit is read: when a line with the EX-99 marker
    is followed, at any distance, by a line with the close marker, nothing
    after that close-marker line is ever read, let alone yielded. *)
Theorem er_generator_first_only
    (before : list string) (marker : string) (mid : list string)
    (closing : string) (rest : list string) :
  Str.contains EX99_MARKER marker = true ->
  Str.contains TEXT_CLOSE closing = true ->
  exists more : list string,
    snd (er_generator (before ++ marker :: mid ++ closing :: rest))
      = more ++ rest.
Proof.
  intros Hm Hc. unfold er_generator.
  generalize (ErState false false).
  induction before as [|l before IH]; intro st.
  - simpl app. rewrite er_loop_cons. cbv zeta.
    destruct (er_break _ marker).
    + exists (mid ++ [closing]). simpl. rewrite <- app_assoc. reflexivity.
    + simpl. apply er_loop_stops_at_close; [|exact Hc].
      apply er_flags_marker_starts. exact Hm.
  - change ((l :: before) ++ marker :: mid ++ closing :: rest)
      with (l :: (before ++ marker :: mid ++ closing :: rest)).
    rewrite er_loop_cons. cbv zeta.
    destruct (er_break _ l).
    + exists (before ++ marker :: mid ++ [closing]). simpl.
      rewrite <- app_assoc. simpl. rewrite <- app_assoc. reflexivity.
    + simpl. apply IH.
Qed.

Lemma er_generator_first_only_witness :
  exists more : list string,
    snd (er_generator ([text_line "FORM 8-K"] ++ text_line "<TYPE>EX-99.1" ::
                       [text_line "<TEXT>"; text_line "Acme"] ++
                       text_line "</TEXT>" ::
                       [text_line "<TYPE>EX-99.2"; text_line "<TEXT>"]))
      = more ++ [text_line "<TYPE>EX-99.2"; text_line "<TEXT>"].
Proof.
  apply er_generator_first_only; vm_compute; reflexivity.
Defined.

Lemma er_loop_emitting_yields (lines : list string) (st : er_state) :
  return_line st = true -> lines <> [] -> fst (er_loop st lines) <> [].
Proof.
  intros Hst Hne. destruct lines as [|l lines]; [contradiction|].
  rewrite er_loop_cons. cbv zeta.
  rewrite (er_flags_keeps_emitting st l Hst).
  destruct (er_break _ l); simpl; discriminate.
Qed.

Lemma er_loop_early_stop (lines : list string) (st : er_state) :
  snd (er_loop st lines) <> [] ->
  fst (er_loop st lines) = [] \/
  exists (init : list string) (l : string),
    fst (er_loop st lines) = init ++ [l] /\ Str.contains TEXT_CLOSE l = true.
Proof.
  revert st. induction lines as [|l lines IH]; intros st Hun.
  - left. reflexivity.
  - rewrite er_loop_cons in Hun |- *. cbv zeta in Hun |- *.
    destruct (er_break (er_flags st l) l) eqn:Hbreak.
    + simpl. destruct (return_line (er_flags st l)); [right|left; reflexivity].
      exists [], l. split; [reflexivity|].
      unfold er_break in Hbreak. apply andb_prop in Hbreak. tauto.
    + simpl in Hun |- *.
      destruct (IH _ Hun) as [Hnil|[init [l' [Hfst Hl']]]].
      * destruct (return_line (er_flags st l)) eqn:Hemit.
        -- exfalso.
           destruct lines as [|l2 lines]; [apply Hun; reflexivity|].
           apply (er_loop_emitting_yields (l2 :: lines) _ Hemit);
             [discriminate|exact Hnil].
        -- left. rewrite Hnil. reflexivity.
      * right. rewrite Hfst.
        exists ((if return_line (er_flags st l) then [l] else []) ++ init), l'.
        split; [rewrite app_assoc; reflexivity|exact Hl'].
Qed.

(** X4. When the locator stops before the end of the stream, the lines it
    has yielded, if any, end with a line that carries the close marker:
    the exhibit is delivered with its closing delimiter. *)
Theorem er_generator_early_stop (lines : list string) :
  snd (er_generator lines) <> [] ->
  fst (er_generator lines) = [] \/
  exists (init : list string) (l : string),
    fst (er_generator lines) = init ++ [l] /\
    Str.contains TEXT_CLOSE l = true.
Proof. apply er_loop_early_stop. Qed.

Lemma er_generator_early_stop_witness :
  fst (er_generator [text_line "<TYPE>EX-99.1"; text_line "<TEXT>";
                     text_line "Acme"; text_line "</TEXT>";
                     text_line "<TYPE>EX-99.2"]) = [] \/
  exists (init : list string) (l : string),
    fst (er_generator [text_line "<TYPE>EX-99.1"; text_line "<TEXT>";
                       text_line "Acme"; text_line "</TEXT>";
                       text_line "<TYPE>EX-99.2"]) = init ++ [l] /\
    Str.contains TEXT_CLOSE l = true.
Proof.
  apply er_generator_early_stop. vm_compute. discriminate.
Defined.

(** ** Reading and writing files *)

Lemma append_empty_r (t : string) : (t ++ "")%string = t.
Proof.
  induction t as [|c t IH]; [reflexivity|].
  change (String c (t ++ "") = String c t). f_equal. exact IH.
Qed.

Lemma append_assoc (a b c : string) :
  ((a ++ b) ++ c)%string = (a ++ b ++ c)%string.
Proof.
  induction a as [|x a IH]; [reflexivity|].
  change (String x ((a ++ b) ++ c) = String x (a ++ b ++ c)). f_equal. exact IH.
Qed.

Lemma concat_empty_cons (x : string) (xs : list string) :
  String.concat "" (x :: xs) = (x ++ String.concat "" xs)%string.
Proof.
  destruct xs as [|y ys]; [|reflexivity].
  symmetry. apply append_empty_r.
Qed.

Lemma concat_empty_app (xs ys : list string) :
  String.concat "" (xs ++ ys)
    = (String.concat "" xs ++ String.concat "" ys)%string.
Proof.
  induction xs as [|x xs IH]; [reflexivity|].
  change ((x :: xs) ++ ys) with (x :: (xs ++ ys)).
  rewrite !concat_empty_cons, IH, append_assoc. reflexivity.
Qed.

Lemma lines_from_join (content line : string) :
  String.concat "" (lines_from line content) = (line ++ content)%string.
Proof.
  revert line. induction content as [|c content IH]; intro line; simpl.
  - destruct line; simpl; [reflexivity|rewrite append_empty_r; reflexivity].
  - destruct (Ascii.eqb c Str.newline).
    + rewrite concat_empty_cons, IH, append_assoc. reflexivity.
    + rewrite IH, append_assoc. reflexivity.
Qed.

Lemma lines_from_nonempty (content line : string) :
  Forall (fun l => l <> "") (lines_from line content).
Proof.
  revert line. induction content as [|c content IH]; intro line; simpl.
  - destruct line; constructor; [discriminate|constructor].
  - destruct (Ascii.eqb c Str.newline).
    + constructor; [destruct line; discriminate|apply IH].
    + apply IH.
Qed.

(** X5. Reading a file line by line loses nothing: no line is empty and
    the lines, joined, are the content of the file. *)
Theorem read_file_lines (fs : filesystem) (filepath content : string) :
  files fs !! filepath = Some content ->
  exists lines : list string,
    read_file fs filepath = Return lines /\
    String.concat "" lines = content /\
    Forall (fun l => l <> "") lines.
Proof.
  intro H. unfold read_file. rewrite H.
  exists (lines_from "" content). split; [reflexivity|]. split.
  - apply lines_from_join.
  - apply lines_from_nonempty.
Qed.

Lemma read_file_lines_witness :
  exists lines : list string,
    read_file sample_fs "/home/user/sec_edgar/data/ABC-2013-01-15-8-K.txt"
      = Return lines /\
    String.concat "" lines
      = (text_line "<TYPE>EX-99.1" ++ text_line "<TEXT>" ++
         text_line "<p>Acme sales rose in the third quarter.</p>" ++
         text_line "</TEXT>")%string /\
    Forall (fun l => l <> "") lines.
Proof.
  apply read_file_lines. vm_compute. reflexivity.
Defined.

(** X6. The text that [extract_er] hands to the markup parser,
    [''.join(er_generator(lines))], is a contiguous piece of the content of
    the filing. *)
Theorem exhibit_text_in_content (fs : filesystem) (filepath content : string) :
  files fs !! filepath = Some content ->
  exists (lines : list string) (head tail : string),
    read_file fs filepath = Return lines /\
    content
      = (head ++ String.concat "" (fst (er_generator lines)) ++ tail)%string.
Proof.
  intro H. unfold read_file. rewrite H.
  exists (lines_from "" content).
  destruct (er_loop_contiguous (lines_from "" content) (ErState false false))
    as [skipped Hsk].
  fold (er_generator (lines_from "" content)) in Hsk.
  exists (String.concat "" skipped),
         (String.concat "" (snd (er_generator (lines_from "" content)))).
  split; [reflexivity|].
  rewrite <- !concat_empty_app, <- Hsk, lines_from_join. reflexivity.
Qed.

Lemma exhibit_text_in_content_witness :
  exists (lines : list string) (head tail : string),
    read_file sample_fs "/home/user/sec_edgar/data/ABC-2013-01-15-8-K.txt"
      = Return lines /\
    (text_line "<TYPE>EX-99.1" ++ text_line "<TEXT>" ++
     text_line "<p>Acme sales rose in the third quarter.</p>" ++
     text_line "</TEXT>")%string
      = (head ++ String.concat "" (fst (er_generator lines)) ++ tail)%string.
Proof.
  apply exhibit_text_in_content. vm_compute. reflexivity.
Defined.

(** X7. What [write_file] writes, [read_file] reads back, and no other
    file is touched; an empty buffer writes nothing, so that no empty file
    is ever created. *)
Theorem write_then_read (fs : filesystem) (filepath buffer other : string) :
  (buffer <> "" ->
   exists lines : list string,
     read_file (write_file fs filepath buffer) filepath = Return lines /\
     String.concat "" lines = buffer) /\
  (other <> filepath ->
   files (write_file fs filepath buffer) !! other = files fs !! other) /\
  write_file fs filepath "" = fs.
Proof.
  split; [|split].
  - intro Hne. exists (lines_from "" buffer). split.
    + unfold read_file. destruct buffer; [contradiction|]. simpl.
      rewrite lookup_insert_eq. reflexivity.
    + apply lines_from_join.
  - intro Hne. destruct buffer; [reflexivity|]. simpl.
    apply lookup_insert_ne. congruence.
  - reflexivity.
Qed.

Lemma write_then_read_witness :
  exists lines : list string,
    read_file (write_file sample_fs sample_entry "Sales rose.") sample_entry
      = Return lines /\
    String.concat "" lines = "Sales rose.".
Proof.
  apply (proj1 (write_then_read sample_fs sample_entry "Sales rose." "")).
  discriminate.
Defined.

(** ** Noise filter: blocks and lengths *)

Lemma blank_match_len (before : option ascii) (s : string) :
  match_len BLANK_LINE before s =
    match s with
    | String c1 (String c2 _) =>
        if Ascii.eqb c1 Str.newline && Ascii.eqb c2 Str.newline
        then Some 2 else None
    | _ => None
    end.
Proof.
  destruct s as [|c1 [|c2 s]]; unfold match_len, match_here; simpl.
  - reflexivity.
  - destruct (Ascii.eqb c1 Str.newline); reflexivity.
  - destruct (Ascii.eqb c1 Str.newline), (Ascii.eqb c2 Str.newline);
      reflexivity.
Qed.

Lemma split_from_not_nil (p : pattern) (s : string) (before : option ascii)
    (skip : nat) (piece : string) :
  split_from p before s skip piece <> [].
Proof.
  revert before skip piece.
  induction s as [|c s IH]; intros before skip piece; simpl; [discriminate|].
  destruct skip; [|apply IH].
  destruct (match_len p before (String c s)) as [[|n]|];
    [apply IH|discriminate|apply IH].
Qed.

Lemma join_cons (sep x : string) (xs : list string) :
  xs <> [] -> Str.join sep (x :: xs) = (x ++ sep ++ Str.join sep xs)%string.
Proof. destruct xs; [contradiction|reflexivity]. Qed.

Lemma split_join_from (n : nat) :
  forall (s : string) (before : option ascii) (piece : string),
    String.length s <= n ->
    Str.join blank_line (split_from BLANK_LINE before s 0 piece)
      = (piece ++ s)%string.
Proof.
  induction n as [|n IH]; intros s before piece Hlen.
  - destruct s; [|simpl in Hlen; lia].
    simpl. rewrite append_empty_r. reflexivity.
  - destruct s as [|c1 s1]; [simpl; rewrite append_empty_r; reflexivity|].
    cbn [split_from]. rewrite blank_match_len.
    destruct s1 as [|c2 s2].
    + cbn. rewrite ?append_empty_r. reflexivity.
    + assert (H1 : String.length (String c2 s2) <= n)
        by (cbn [String.length] in Hlen |- *; lia).
      assert (H2 : String.length s2 <= n)
        by (cbn [String.length] in Hlen |- *; lia).
      destruct (Ascii.eqb c1 Str.newline) eqn:E1,
               (Ascii.eqb c2 Str.newline) eqn:E2; cbn [andb].
      * apply Ascii.eqb_eq in E1, E2. subst c1 c2.
        cbn [split_from].
        rewrite join_cons by apply split_from_not_nil.
        rewrite (IH s2 _ _ H2). reflexivity.
      * rewrite (IH _ _ _ H1), append_assoc. reflexivity.
      * rewrite (IH _ _ _ H1), append_assoc. reflexivity.
      * rewrite (IH _ _ _ H1), append_assoc. reflexivity.
Qed.

Lemma split_join (er : string) :
  Str.join blank_line (re_split BLANK_LINE er) = er.
Proof.
  unfold re_split. apply (split_join_from (String.length er)). lia.
Qed.

(** X8. Splitting on blank lines and rejoining with blank lines gives the
    text back: ['\n\n'.join(re.split('\n\n', er)) == er]. *)
Theorem split_join_roundtrip (er : string) :
  Str.join blank_line (re_split BLANK_LINE er) = er.
Proof. apply split_join. Qed.

Lemma length_append (a b : string) :
  String.length (a ++ b) = String.length a + String.length b.
Proof.
  induction a as [|c a IH]; [reflexivity|].
  change (S (String.length (a ++ b)) = S (String.length a + String.length b)).
  rewrite IH. reflexivity.
Qed.

Lemma join_length (blocks : list string) :
  String.length (Str.join blank_line blocks)
    = total_length blocks + 2 * Nat.pred (length blocks).
Proof.
  induction blocks as [|b blocks IH]; [reflexivity|].
  destruct blocks as [|b' blocks].
  - simpl. lia.
  - rewrite join_cons by discriminate.
    rewrite !length_append, IH. simpl. lia.
Qed.

Lemma filter_lengths (f : string -> bool) (blocks : list string) :
  total_length (List.filter f blocks) <= total_length blocks /\
  length (List.filter f blocks) <= length blocks.
Proof.
  induction blocks as [|b blocks [IH1 IH2]]; simpl; [lia|].
  destruct (f b); simpl; lia.
Qed.

Lemma clean_candidate_length (er : string) :
  String.length (clean_candidate er) <= String.length er.
Proof.
  unfold clean_candidate.
  rewrite <- (split_join er) at 2.
  rewrite !join_length.
  destruct (filter_lengths clean_text_helper (re_split BLANK_LINE er)).
  lia.
Qed.

(** X9. The noise filter only removes: the text [clean_text] returns is
    never longer than its input. *)
Theorem clean_text_never_longer (er : string) (trim_limit : Q) (out : string) :
  clean_text er trim_limit = Return out ->
  String.length out <= String.length er.
Proof.
  unfold clean_text. destruct (Nat.eqb (String.length er) 0); [discriminate|].
  intro H. injection H as <-.
  destruct (Qle_bool trim_limit _); [apply clean_candidate_length|lia].
Qed.

Lemma clean_text_never_longer_witness :
  String.length "Sales rose in the third quarter."
    <= String.length sample_release.
Proof.
  apply (clean_text_never_longer sample_release DEFAULT_TRIM_LIMIT).
  vm_compute. reflexivity.
Defined.

Lemma filter_all (f : string -> bool) (blocks : list string) :
  forallb f blocks = true -> List.filter f blocks = blocks.
Proof.
  induction blocks as [|b blocks IH]; simpl; [reflexivity|].
  intro H. apply andb_prop in H. destruct H as [Hb Hrest].
  rewrite Hb, (IH Hrest). reflexivity.
Qed.

(** X10. A non-empty text all of whose blocks pass [clean_text_helper] is
    returned unchanged, whatever the trim limit. *)
Theorem clean_text_keeps_clean_text (er : string) (trim_limit : Q) :
  er <> "" ->
  forallb clean_text_helper (re_split BLANK_LINE er) = true ->
  clean_text er trim_limit = Return er.
Proof.
  intros Hne Hall. unfold clean_text, clean_candidate.
  rewrite (filter_all _ _ Hall), split_join.
  destruct er as [|c er]; [contradiction|]. simpl Nat.eqb. cbv iota.
  destruct (Qle_bool trim_limit _); reflexivity.
Qed.

Lemma clean_text_keeps_clean_text_witness :
  clean_text two_paragraphs DEFAULT_TRIM_LIMIT = Return two_paragraphs.
Proof.
  apply clean_text_keeps_clean_text; [discriminate|vm_compute; reflexivity].
Defined.

Lemma clean_text_output_nonempty (er : string) (trim_limit : Q) (out : string) :
  (0 < trim_limit)%Q ->
  clean_text er trim_limit = Return out ->
  out <> "".
Proof.
  intros Hpos. unfold clean_text.
  destruct (Nat.eqb (String.length er) 0) eqn:Hlen; [discriminate|].
  intro H. injection H as <-.
  destruct (Qle_bool trim_limit _) eqn:Hratio.
  - intro Hempty. rewrite Hempty in Hratio.
    apply Qle_bool_iff in Hratio.
    assert (H0 : (inject_Z (Z.of_nat (String.length "")) /
                  inject_Z (Z.of_nat (String.length er)) == 0)%Q).
    { simpl. unfold Qdiv. apply Qmult_0_l. }
    rewrite H0 in Hratio. exact (Qlt_not_le _ _ Hpos Hratio).
  - intro He. rewrite He in Hlen. discriminate Hlen.
Qed.

(** X11. With a positive trim limit [clean_text] never returns the empty
    text: when every block is dropped the candidate fails the limit and the
    input comes back. *)
Theorem clean_text_not_empty (er : string) (trim_limit : Q) (out : string) :
  (0 < trim_limit)%Q ->
  clean_text er trim_limit = Return out ->
  out <> "".
Proof. apply clean_text_output_nonempty. Qed.

Lemma clean_text_not_empty_witness : "ABOUT ACME" <> "".
Proof.
  apply (clean_text_not_empty "ABOUT ACME" DEFAULT_TRIM_LIMIT).
  - reflexivity.
  - vm_compute. reflexivity.
Defined.

(** ** The matcher: what a successful match has read *)

Lemma advance_over_app (u v : string) (st : mstate) :
  advance_over st (u ++ v) = advance_over (advance_over st u) v.
Proof.
  revert st. induction u as [|c u IH]; intro st; [reflexivity|].
  change (advance_over (advance st c) (u ++ v)
          = advance_over (advance_over (advance st c) u) v).
  apply IH.
Qed.

(** A successful repetition has read a run [u] of matching characters, at
    least [lo] of them, and the rest of the pattern matched after it. *)
Lemma rep_inv (fl : flags) (a : atom) (k : cont) (y : mstate) (s : string) :
  forall (lo : nat) (hi : option nat) (st : mstate),
    rep fl a lo hi st s k = Some y ->
    exists u v : string,
      s = (u ++ v)%string /\
      Str.forall_chars (atom_matches fl a) u = true /\
      lo <= String.length u /\
      k (advance_over st u) v = Some y.
Proof.
  assert (Hstop : forall lo st s0,
            match lo with O => k st s0 | S _ => None end = Some y ->
            exists u v : string,
              s0 = (u ++ v)%string /\
              Str.forall_chars (atom_matches fl a) u = true /\
              lo <= String.length u /\
              k (advance_over st u) v = Some y).
  { intros lo st s0 H. destruct lo; [|discriminate H].
    exists "", s0. repeat split; [simpl; lia|exact H]. }
  induction s as [|c s IH]; intros lo hi st H.
  - apply Hstop. exact H.
  - cbn [rep] in H. cbv zeta in H.
    destruct (match hi with Some 0 => false | _ => atom_matches fl a c end)
      eqn:Hmore; [|apply Hstop; exact H].
    destruct (rep fl a (Nat.pred lo) (option_map Nat.pred hi) (advance st c) s k)
      as [r|] eqn:Hrec; [|apply Hstop; exact H].
    injection H as ->.
    destruct (IH _ _ _ Hrec) as [u [v [Hs [Hu [Hlo Hk]]]]].
    exists (String c u), v. repeat split.
    + rewrite Hs. reflexivity.
    + simpl. rewrite Hu, andb_true_r.
      destruct hi as [[|h]|]; [discriminate Hmore|exact Hmore|exact Hmore].
    + simpl. lia.
    + exact Hk.
Qed.

(** A repetition without upper bound succeeds as soon as the rest of the
    pattern matches after some run [u] of matching characters, though it
    may settle on a longer run. *)
Lemma rep_exists (fl : flags) (a : atom) (k : cont) (u v : string) (x : mstate) :
  forall (lo : nat) (st : mstate),
    Str.forall_chars (atom_matches fl a) u = true ->
    lo <= String.length u ->
    k (advance_over st u) v = Some x ->
    exists y : mstate, rep fl a lo None st (u ++ v) k = Some y.
Proof.
  induction u as [|c u IH]; intros lo st Hu Hlo Hk.
  - simpl in Hlo. assert (lo = 0) by lia. subst lo.
    simpl in Hk. simpl.
    destruct v as [|c v]; simpl; [eauto|].
    destruct (atom_matches fl a c); [|eauto].
    destruct (rep fl a 0 None (advance st c) v k); eauto.
  - simpl in Hu. apply andb_prop in Hu. destruct Hu as [Hc Hu].
    change (String c u ++ v)%string with (String c (u ++ v)).
    cbn [rep]. cbv zeta. rewrite Hc.
    destruct (IH (Nat.pred lo) (advance st c) Hu) as [y Hy];
      [simpl in Hlo; lia|exact Hk|].
    cbn [option_map]. rewrite Hy. eauto.
Qed.

(** A greedy repetition settles on the whole run [u] when the text after
    it is empty or starts with a character the item rejects, and the rest
    of the pattern matches there. *)
Lemma rep_max (fl : flags) (a : atom) (k : cont) (u v : string) (x : mstate)
    (lo : nat) (st : mstate) :
  Str.forall_chars (atom_matches fl a) u = true ->
  lo <= String.length u ->
  match v with
  | EmptyString => True
  | String c _ => atom_matches fl a c = false
  end ->
  k (advance_over st u) v = Some x ->
  rep fl a lo None st (u ++ v) k = Some x.
Proof.
  intros Hu Hlo Hv Hk. apply rep_take; [exact Hu|].
  replace (lo - String.length u) with 0 by lia.
  destruct v as [|c v]; simpl; [exact Hk|].
  rewrite Hv. exact Hk.
Qed.

Lemma lower_string_empty (h : string) : lower_string h = "" -> h = "".
Proof. destruct h; [reflexivity|discriminate]. Qed.

(** Under [IGNORECASE] a literal reads any text that is the literal up to
    case. *)
Lemma run_lit (fl : flags) (w : string) (k : cont) (s : string) :
  IGNORECASE fl = true ->
  forall (h : string) (st : mstate),
    lower_string h = lower_string w ->
    run fl (lit w) st (h ++ s) k = k (advance_over st h) s.
Proof.
  intro Hfl. induction w as [|c w IH]; intros h st Hh.
  - apply lower_string_empty in Hh. subst h. reflexivity.
  - destruct h as [|c' h]; [discriminate Hh|].
    simpl in Hh. injection Hh as Hc Hh.
    assert (Hm : atom_matches fl (Lit c) c' = true).
    { simpl. rewrite Hfl, Hc. apply Ascii.eqb_refl. }
    destruct w as [|c2 w].
    + apply lower_string_empty in Hh. subst h.
      simpl. simpl in Hm. rewrite Hm. reflexivity.
    + change (lit (String c (String c2 w)))
        with (Cat (Atom (Lit c)) (lit (String c2 w))).
      change (String c' h ++ s)%string with (String c' (h ++ s)).
      cbn [run]. rewrite Hm. exact (IH h (advance st c') Hh).
Qed.

(** Conversely, a literal that matched has read the literal, up to case. *)
Lemma run_lit_inv (fl : flags) (w : string) (k : cont) (y : mstate) :
  IGNORECASE fl = true ->
  forall (s : string) (st : mstate),
    run fl (lit w) st s k = Some y ->
    exists h s' : string,
      s = (h ++ s')%string /\
      lower_string h = lower_string w /\
      k (advance_over st h) s' = Some y.
Proof.
  intro Hfl. induction w as [|c w IH]; intros s st H.
  - exists "", s. repeat split. exact H.
  - assert (Hatom : forall k0,
              run fl (Atom (Lit c)) st s k0 = Some y ->
              exists c' s', s = String c' s' /\ Str.lower c' = Str.lower c /\
                            k0 (advance st c') s' = Some y).
    { intros k0 H0. simpl in H0. destruct s as [|c' s']; [discriminate H0|].
      rewrite Hfl in H0.
      destruct (Ascii.eqb (Str.lower c') (Str.lower c)) eqn:E;
        [|discriminate H0].
      apply Ascii.eqb_eq in E. eauto. }
    destruct w as [|c2 w].
    + destruct (Hatom _ H) as [c' [s' [-> [Hc Hk]]]].
      exists (String c' ""), s'. repeat split; [|exact Hk].
      simpl. rewrite Hc. reflexivity.
    + change (run fl (Atom (Lit c)) st s
                  (fun st' s' => run fl (lit (String c2 w)) st' s' k)
              = Some y) in H.
      destruct (Hatom _ H) as [c' [s' [-> [Hc Hk]]]].
      destruct (IH _ _ Hk) as [h [s'' [-> [Hh Hk']]]].
      exists (String c' h), s''. repeat split; [|exact Hk'].
      simpl. rewrite Hc, Hh. reflexivity.
Qed.

Lemma dotall_matches_all (t : string) :
  Str.forall_chars (atom_matches flags_IMS Dot) t = true.
Proof. induction t as [|c t IH]; [reflexivity|exact IH]. Qed.

Lemma pos_advance_over_from_start (t : string) (before : option ascii) :
  pos (advance_over (MState before 0 []) t) = String.length t.
Proof. rewrite pos_advance_over. reflexivity. Qed.

Lemma in_patterns_covered (name : string) (p : pattern) (block : string) :
  In (name, p) PATTERNS -> covers p block = true -> covered block = true.
Proof.
  intros Hin Hcov. unfold covered. apply existsb_exists.
  exists (name, p). split; assumption.
Qed.

(** ** Noise filter: what some predicates drop *)

Lemma clean_text_helper_covered (name : string) (p : pattern) (block : string) :
  In (name, p) PATTERNS -> covers p block = true ->
  clean_text_helper block = false.
Proof.
  intros Hin Hcov.
  exact (all_nonzero_covered block PATTERNS
           (in_patterns_covered name p block Hin Hcov)).
Qed.

Lemma covers_whole (p : pattern) (block : string) :
  match_here p None block = Some (advance_over (MState None 0 []) block) ->
  covers p block = true.
Proof.
  intro H. unfold covers, match_len. rewrite H. simpl.
  rewrite pos_advance_over_from_start. apply Nat.eqb_refl.
Qed.

(** X12. A block that starts with [ABOUT ], in any case, and goes on is
    dropped in full. *)
Theorem about_block_dropped (header rest : string) :
  lower_string header = "about " -> rest <> "" ->
  clean_text_helper (header ++ rest) = false.
Proof.
  intros Hh Hrest.
  apply (clean_text_helper_covered "ABOUT HEADER" ABOUT_HEADER).
  - unfold PATTERNS, ABOUT_HEADER. simpl. tauto.
  - apply covers_whole. unfold match_here, ABOUT_HEADER.
    cbn [pat_flags pat_regex].
    change (run flags_IMS (lit "ABOUT ") (MState None 0 []) (header ++ rest)
              (fun st' s' => rep flags_IMS Dot 1 None st' s' accept)
            = Some (advance_over (MState None 0 []) (header ++ rest))).
    rewrite run_lit by (reflexivity || exact Hh).
    rewrite <- (append_empty_r rest) at 1.
    rewrite advance_over_app.
    apply rep_max; [apply dotall_matches_all| |exact I|reflexivity].
    destruct rest; [contradiction|simpl; lia].
Qed.

Lemma about_block_dropped_witness :
  clean_text_helper ("About " ++ "Acme Corp") = false.
Proof.
  apply about_block_dropped; [reflexivity|discriminate].
Defined.

Lemma take_drop_while (f : ascii -> bool) (t : string) :
  t = (take_while f t ++ drop_while f t)%string.
Proof.
  induction t as [|c t IH]; [reflexivity|].
  simpl. destruct (f c); [|reflexivity].
  change (String c t = String c (take_while f t ++ drop_while f t)).
  f_equal. exact IH.
Qed.

Lemma take_while_all (f : ascii -> bool) (t : string) :
  Str.forall_chars f (take_while f t) = true.
Proof.
  induction t as [|c t IH]; [reflexivity|].
  simpl. destruct (f c) eqn:E; [|reflexivity].
  simpl. rewrite E, IH. reflexivity.
Qed.

Lemma drop_while_head (f : ascii -> bool) (t : string) :
  match drop_while f t with
  | EmptyString => True
  | String c _ => f c = false
  end.
Proof.
  induction t as [|c t IH]; [exact I|].
  simpl. destruct (f c) eqn:E; [exact IH|exact E].
Qed.

Lemma drop_while_keeps (f g : ascii -> bool) (t : string) :
  Str.forall_chars g t = true -> Str.forall_chars g (drop_while f t) = true.
Proof.
  induction t as [|c t IH]; [reflexivity|].
  intro H. simpl. destruct (f c); [|exact H].
  simpl in H. apply andb_prop in H. apply IH. tauto.
Qed.

Lemma digit_not_space (c : ascii) :
  Str.is_digit c = true -> Str.is_space c = false.
Proof.
  destruct c as [[] [] [] [] [] [] [] []]; vm_compute; congruence.
Qed.

Section SingleNumber.

Variables (digits after : string).
Hypothesis digits_nonempty : digits <> "".
Hypothesis digits_digits : Str.forall_chars Str.is_digit digits = true.
Hypothesis after_plain : Str.forall_chars not_digit after = true.

Let fl : flags := flags_IMS.

Lemma digits_head :
  match (digits ++ after)%string with
  | EmptyString => False
  | String c _ => Str.is_digit c = true
  end.
Proof.
  destruct digits as [|c ds]; [contradiction|].
  simpl in digits_digits. apply andb_prop in digits_digits. simpl. tauto.
Qed.

(** [\D*\s*$] reads the text after the number to its end. *)
Lemma number_tail (st : mstate) :
  run fl (seq [star nondigit; star space; Eol]) st after accept
    = Some (advance_over st after).
Proof.
  change (rep fl nondigit 0 None st after
            (fun st' s' => run fl (seq [star space; Eol]) st' s' accept)
          = Some (advance_over st after)).
  rewrite <- (append_empty_r after) at 1.
  apply rep_max; [exact after_plain|lia|exact I|reflexivity].
Qed.

(** [\d+] reads the whole number. *)
Lemma number_digits (st : mstate) :
  run fl (seq [plus digit; star nondigit; star space; Eol]) st
      (digits ++ after) accept
    = Some (advance_over st (digits ++ after)).
Proof.
  change (rep fl digit 1 None st (digits ++ after)
            (fun st' s' =>
               run fl (seq [star nondigit; star space; Eol]) st' s' accept)
          = Some (advance_over st (digits ++ after))).
  rewrite advance_over_app.
  apply rep_max.
  - exact digits_digits.
  - destruct digits; [contradiction|simpl; lia].
  - destruct after as [|c t]; [exact I|].
    simpl in after_plain. apply andb_prop in after_plain.
    destruct after_plain as [Hc _]. unfold not_digit in Hc.
    apply negb_true_iff in Hc. simpl. rewrite Hc. reflexivity.
  - apply number_tail.
Qed.

(** [\D*] reads the text before the number and stops at its first digit. *)
Lemma number_before (st : mstate) (before : string) :
  Str.forall_chars not_digit before = true ->
  run fl (seq [star nondigit; plus digit; star nondigit; star space; Eol]) st
      (before ++ digits ++ after) accept
    = Some (advance_over st (before ++ digits ++ after)).
Proof.
  intro Hb.
  change (rep fl nondigit 0 None st (before ++ digits ++ after)
            (fun st' s' =>
               run fl (seq [plus digit; star nondigit; star space; Eol])
                   st' s' accept)
          = Some (advance_over st (before ++ digits ++ after))).
  rewrite advance_over_app.
  apply rep_max; [exact Hb|lia| |apply number_digits].
  pose proof digits_head as Hd.
  destruct (digits ++ after)%string as [|c t]; [exact I|].
  simpl. rewrite Hd. reflexivity.
Qed.

Lemma number_block (before : string) :
  Str.forall_chars not_digit before = true ->
  match_here PAGE_NUMBERS1 None (before ++ digits ++ after)
    = Some (advance_over (MState None 0 []) (before ++ digits ++ after)).
Proof.
  intro Hb. unfold match_here, PAGE_NUMBERS1. cbn [pat_flags pat_regex].
  set (st0 := MState None 0 []).
  rewrite (take_drop_while Str.is_space before) at 1.
  rewrite append_assoc.
  change (rep fl space 0 None st0
            (take_while Str.is_space before ++
             drop_while Str.is_space before ++ digits ++ after)
            (fun st' s' =>
               run fl (seq [star nondigit; plus digit; star nondigit;
                            star space; Eol]) st' s' accept)
          = Some (advance_over st0 (before ++ digits ++ after))).
  rewrite (take_drop_while Str.is_space before) at 3.
  rewrite append_assoc, advance_over_app.
  apply rep_max.
  - apply take_while_all.
  - lia.
  - pose proof (drop_while_head Str.is_space before) as Hhead.
    pose proof digits_head as Hd.
    destruct (drop_while Str.is_space before) as [|c t].
    + destruct (digits ++ after)%string as [|c t]; [exact I|].
      simpl. apply digit_not_space. exact Hd.
    + simpl. exact Hhead.
  - apply number_before. apply drop_while_keeps. exact Hb.
Qed.

End SingleNumber.

(** X13. A block that holds exactly one run of digits, whatever the text
    before and after it, is dropped in full by the page-number predicate:
    every paragraph that cites a single number is removed. *)
Theorem single_number_block_dropped (before digits after : string) :
  Str.forall_chars not_digit before = true ->
  digits <> "" -> Str.forall_chars Str.is_digit digits = true ->
  Str.forall_chars not_digit after = true ->
  clean_text_helper (before ++ digits ++ after) = false.
Proof.
  intros Hb Hne Hd Ha.
  apply (clean_text_helper_covered "PAGE NUMBERS1" PAGE_NUMBERS1).
  - unfold PATTERNS, PAGE_NUMBERS1. simpl. tauto.
  - apply covers_whole. apply number_block; assumption.
Qed.

Lemma single_number_block_dropped_witness :
  clean_text_helper ("Revenue rose " ++ "12" ++ " percent on higher sales.")
    = false.
Proof.
  apply single_number_block_dropped;
    solve [discriminate | vm_compute; reflexivity].
Defined.

(** If whatever follows a repetition, when it matches, reads the text to
    its end, so does the repetition. *)
Lemma rep_reads_all (fl : flags) (a : atom) (k : cont) :
  (forall st s y, k st s = Some y -> y = advance_over st s) ->
  forall lo hi st s y,
    rep fl a lo hi st s k = Some y -> y = advance_over st s.
Proof.
  intros Hk lo hi st s y H.
  destruct (rep_inv fl a k y s lo hi st H) as [u [v [-> [_ [_ Hy]]]]].
  rewrite advance_over_app. apply Hk. exact Hy.
Qed.

Section ConferenceCall.

Let fl : flags := flags_IMS.

Let after_call : cont :=
  fun st s => run fl (seq [star Dot; Eol]) st s accept.

Let from_call : cont :=
  fun st s => run fl (seq [lit "conference call"; star Dot; Eol]) st s accept.

Let before_call : cont :=
  fun st s =>
    run fl (seq [star Dot; lit "conference call"; star Dot; Eol]) st s accept.

Lemma after_call_reads (st : mstate) (s : string) :
  after_call st s = Some (advance_over st s).
Proof.
  unfold after_call.
  change (rep fl Dot 0 None st s
            (fun st' s' => run fl Eol st' s' accept)
          = Some (advance_over st s)).
  rewrite <- (append_empty_r s) at 1.
  apply rep_max; [apply dotall_matches_all|lia|exact I|reflexivity].
Qed.

Lemma from_call_reads (st : mstate) (s : string) (y : mstate) :
  from_call st s = Some y -> y = advance_over st s.
Proof.
  unfold from_call. intro H.
  change (run fl (lit "conference call") st s after_call = Some y) in H.
  destruct (run_lit_inv fl _ _ y eq_refl s st H) as [h [s' [-> [_ Hy]]]].
  rewrite after_call_reads in Hy. injection Hy as <-.
  symmetry. apply advance_over_app.
Qed.

Lemma from_call_matches (st : mstate) (call rest : string) :
  lower_string call = "conference call" ->
  from_call st (call ++ rest)%string = Some (advance_over st (call ++ rest)%string).
Proof.
  intro Hcall. unfold from_call.
  change (run fl (lit "conference call") st (call ++ rest)%string after_call
          = Some (advance_over st (call ++ rest)%string)).
  rewrite run_lit by (reflexivity || exact Hcall).
  rewrite after_call_reads, advance_over_app. reflexivity.
Qed.

Lemma before_call_matches (st : mstate) (before call rest : string) :
  lower_string call = "conference call" ->
  before_call st (before ++ call ++ rest)%string
    = Some (advance_over st (before ++ call ++ rest)%string).
Proof.
  intro Hcall. unfold before_call.
  change (rep fl Dot 0 None st (before ++ call ++ rest)%string from_call
          = Some (advance_over st (before ++ call ++ rest)%string)).
  destruct (rep_exists fl Dot from_call before (call ++ rest)%string
              (advance_over (advance_over st before) (call ++ rest)%string) 0 st)
    as [y Hy].
  - apply dotall_matches_all.
  - lia.
  - apply from_call_matches. exact Hcall.
  - rewrite Hy. f_equal.
    exact (rep_reads_all fl Dot from_call from_call_reads _ _ _ _ _ Hy).
Qed.

Lemma before_call_reads (st : mstate) (s : string) (y : mstate) :
  before_call st s = Some y -> y = advance_over st s.
Proof.
  unfold before_call. intro H.
  change (rep fl Dot 0 None st s from_call = Some y) in H.
  exact (rep_reads_all fl Dot from_call from_call_reads _ _ _ _ _ H).
Qed.

Lemma call_block (before call rest : string) :
  lower_string call = "conference call" ->
  match_here CONFERENCE_CALL None (before ++ call ++ rest)%string
    = Some (advance_over (MState None 0 []) (before ++ call ++ rest)%string).
Proof.
  intro Hcall. unfold match_here, CONFERENCE_CALL. cbn [pat_flags pat_regex].
  set (st0 := MState None 0 []).
  change (rep fl space 0 None st0 (before ++ call ++ rest)%string before_call
          = Some (advance_over st0 (before ++ call ++ rest)%string)).
  destruct (rep_exists fl space before_call "" (before ++ call ++ rest)%string
              (advance_over st0 (before ++ call ++ rest)%string) 0 st0)
    as [y Hy].
  - reflexivity.
  - simpl. lia.
  - apply before_call_matches. exact Hcall.
  - change ("" ++ (before ++ call ++ rest))%string
      with (before ++ call ++ rest)%string in Hy.
    rewrite Hy. f_equal.
    exact (rep_reads_all fl space before_call before_call_reads _ _ _ _ _ Hy).
Qed.

End ConferenceCall.

(** X14. A block in which the words [conference call] occur, in any case
    and anywhere, is dropped in full. *)
Theorem conference_call_block_dropped (before call rest : string) :
  lower_string call = "conference call" ->
  clean_text_helper (before ++ call ++ rest) = false.
Proof.
  intro Hcall.
  apply (clean_text_helper_covered "CONFERENCE CALL" CONFERENCE_CALL).
  - unfold PATTERNS, CONFERENCE_CALL. simpl. tauto.
  - apply covers_whole. apply call_block. exact Hcall.
Qed.

Lemma conference_call_block_dropped_witness :
  clean_text_helper
    ("Acme will host a " ++ "Conference Call" ++ " on Monday.") = false.
Proof.
  apply conference_call_block_dropped. reflexivity.
Defined.

(** ** File discovery: what an accepted name looks like *)

Lemma lower_dash (c : ascii) : Str.lower c = "-"%char -> c = "-"%char.
Proof.
  destruct c as [[] [] [] [] [] [] [] []]; vm_compute; congruence.
Qed.

Lemma lower_string_dash (h : string) : lower_string h = "-" -> h = "-".
Proof.
  destruct h as [|c [|c' h]]; try discriminate.
  simpl. intro H. injection H as H. rewrite (lower_dash c H). reflexivity.
Qed.

Lemma at_least_one (t : string) : 1 <= String.length t -> t <> "".
Proof. destruct t; simpl; [lia|discriminate]. Qed.

Lemma filename_groups_inv (name symbol date : string) :
  filename_groups name = Some (symbol, date) ->
  symbol <> "" /\ Str.forall_chars Str.is_word symbol = true /\
  date <> "" /\ Str.forall_chars not_newline date = true /\
  exists suffix tail : string,
    name = (symbol ++ "-" ++ date ++ suffix ++ tail)%string /\
    lower_string suffix = "-8-k.txt".
Proof.
  unfold filename_groups.
  destruct (Str.contains "8-K.txt" name); [|discriminate].
  destruct (re_match FILENAME_PATTERN name) as [m|] eqn:Hm; [|discriminate].
  intro H. injection H as H1 H2.
  unfold re_match, match_here, FILENAME_PATTERN in Hm.
  cbn [pat_flags pat_regex] in Hm.
  set (st0 := MState None 0 []) in Hm.
  change (rep flags_I (Word false) 1 None st0 name
            (fun st' s' =>
               run flags_I (lit "-") (close_group 1 st0 name st') s'
                 (fun st2 s2 =>
                    rep flags_I Dot 1 None st2 s2
                      (fun st3 s3 =>
                         run flags_I (lit "-8-K.txt")
                             (close_group 2 st2 s2 st3) s3 accept)))
          = Some m) in Hm.
  destruct (rep_inv _ _ _ _ _ _ _ _ Hm) as [u [v [-> [Hu [Hulen Hk1]]]]].
  destruct (run_lit_inv flags_I _ _ _ eq_refl _ _ Hk1)
    as [h [v' [-> [Hh Hk2]]]].
  destruct (rep_inv _ _ _ _ _ _ _ _ Hk2) as [d [v2 [-> [Hd [Hdlen Hk3]]]]].
  destruct (run_lit_inv flags_I _ _ _ eq_refl _ _ Hk3)
    as [h2 [tail [-> [Hh2 Hacc]]]].
  apply lower_string_dash in Hh. subst h.
  unfold accept in Hacc. injection Hacc as <-.
  assert (Hsym : symbol = u).
  { rewrite <- H1. unfold group.
    rewrite groups_advance_over.
    cbn [groups close_group find fst snd Nat.eqb].
    rewrite !groups_advance_over.
    cbn [groups advance close_group find fst snd Nat.eqb].
    rewrite pos_advance_over. subst st0. cbn [pos Nat.add].
    rewrite Nat.sub_0_r. apply substring_prefix. }
  assert (Hdate : date = d).
  { rewrite <- H2. unfold group.
    rewrite groups_advance_over.
    cbn [groups advance close_group find fst snd Nat.eqb].
    match goal with
    | |- String.substring 0 ?n _ = _ =>
        replace n with (String.length d)
          by (rewrite !pos_advance_over; cbn [pos advance close_group]; lia)
    end.
    apply substring_prefix. }
  clear H1 H2 Hm Hk1 Hk2 Hk3. subst symbol date.
  split; [apply at_least_one; exact Hulen|].
  split; [exact Hu|].
  split; [apply at_least_one; exact Hdlen|].
  split; [exact Hd|].
  exists h2, tail. split; [reflexivity|exact Hh2].
Qed.

(** X15. A file name that discovery accepts is a non-empty run of word
    characters (the symbol, so without any path separator), a dash, a
    non-empty date string without line feed, and the suffix [-8-K.txt] in
    some case, possibly followed by more text. *)
Theorem filename_groups_sound (name symbol date : string) :
  filename_groups name = Some (symbol, date) ->
  symbol <> "" /\ Str.forall_chars Str.is_word symbol = true /\
  date <> "" /\ Str.forall_chars not_newline date = true /\
  exists suffix tail : string,
    name = (symbol ++ "-" ++ date ++ suffix ++ tail)%string /\
    lower_string suffix = "-8-k.txt".
Proof. apply filename_groups_inv. Qed.

Lemma filename_groups_sound_witness :
  "ABC" <> "" /\ Str.forall_chars Str.is_word "ABC" = true /\
  "2013-01-15" <> "" /\ Str.forall_chars not_newline "2013-01-15" = true /\
  exists suffix tail : string,
    "ABC-2013-01-15-8-k.TXT.8-K.txt"
      = ("ABC" ++ "-" ++ "2013-01-15" ++ suffix ++ tail)%string /\
    lower_string suffix = "-8-k.txt".
Proof.
  apply (filename_groups_sound "ABC-2013-01-15-8-k.TXT.8-K.txt").
  vm_compute. reflexivity.
Defined.

Lemma filelistings_from_grouped (parse : string -> option Timestamp)
    (walk : list (string * string)) :
  forall filedict filedict' : gmap string (list filing),
    filelistings_from parse walk filedict = Some filedict' ->
    grouped_by_symbol filedict -> grouped_by_symbol filedict'.
Proof.
  induction walk as [|[root name] walk IH]; intros filedict filedict' H Hinv.
  - simpl in H. injection H as <-. exact Hinv.
  - simpl in H.
    destruct (filename_groups name) as [[symbol datetime]|] eqn:Hname;
      [|exact (IH _ _ H Hinv)].
    destruct (parse datetime) as [timestamp|]; [|discriminate H].
    apply (IH _ _ H). clear H IH.
    destruct (filename_groups_inv _ _ _ Hname) as [Hne [Hword _]].
    intros key filings Hkey. unfold filedict_append in Hkey.
    destruct (decide (symbol = key)) as [->|Hdiff].
    + rewrite lookup_insert_eq in Hkey. injection Hkey as <-.
      split; [destruct (default [] (filedict !! key)); discriminate|].
      split; [exact Hne|]. split; [exact Hword|].
      apply Forall_app. split; [|repeat constructor].
      destruct (filedict !! key) as [old|] eqn:Hold; [|constructor].
      simpl. apply (Hinv key old Hold).
    + rewrite lookup_insert_ne in Hkey by exact Hdiff.
      exact (Hinv key filings Hkey).
Qed.

(** X16. In the dictionary that [filelistings] returns every key is a
    symbol, a non-empty run of word characters, and the filings listed
    under a key are not empty and all carry that symbol. *)
Theorem filelistings_grouped (parse : string -> option Timestamp)
    (walk : list (string * string)) (filedict : gmap string (list filing)) :
  filelistings parse walk = Some filedict -> grouped_by_symbol filedict.
Proof.
  intro H. apply (filelistings_from_grouped parse walk ∅ filedict H).
  intros key filings Hkey. rewrite lookup_empty in Hkey. discriminate Hkey.
Qed.

Lemma filelistings_grouped_witness :
  exists filedict : gmap string (list filing),
    filelistings sample_date_parser
      [("/data", "ABC-2013-01-15-8-K.txt"); ("/data", "notes.txt")]
      = Some filedict /\
    grouped_by_symbol filedict.
Proof.
  eexists. split; [vm_compute; reflexivity|].
  apply (filelistings_grouped sample_date_parser
           [("/data", "ABC-2013-01-15-8-K.txt"); ("/data", "notes.txt")]).
  vm_compute. reflexivity.
Defined.

Lemma filelistings_from_fails (parse : string -> option Timestamp)
    (walk : list (string * string)) :
  forall filedict : gmap string (list filing),
    filelistings_from parse walk filedict = None <->
    Exists (fun entry =>
              exists symbol datetime,
                filename_groups (snd entry) = Some (symbol, datetime) /\
                parse datetime = None) walk.
Proof.
  induction walk as [|[root name] walk IH]; intro filedict.
  - simpl. split; [discriminate|]. intro H. inversion H.
  - simpl.
    destruct (filename_groups name) as [[symbol datetime]|] eqn:Hname.
    + destruct (parse datetime) as [timestamp|] eqn:Hparse.
      * rewrite IH. split; intro H; [right; exact H|].
        inversion H as [entry rest [s [dt [Hn Hp]]]|entry rest Hrest]; subst;
          [|exact Hrest].
        simpl in Hn. rewrite Hname in Hn. injection Hn as <- <-.
        congruence.
      * split; [|reflexivity]. intros _. left. simpl. eauto.
    + rewrite IH. split; intro H; [right; exact H|].
      inversion H as [entry rest [s [dt [Hn Hp]]]|entry rest Hrest]; subst;
        [|exact Hrest].
      simpl in Hn. rewrite Hname in Hn. discriminate Hn.
Qed.

(** X17. Discovery fails as a whole, with the exception of the [Timestamp]
    constructor, exactly when some accepted file name has a date part that
    is not a date; names that are not accepted are passed over. *)
Theorem filelistings_fails_iff (parse : string -> option Timestamp)
    (walk : list (string * string)) :
  filelistings parse walk = None <->
  Exists (fun entry =>
            exists symbol datetime,
              filename_groups (snd entry) = Some (symbol, datetime) /\
              parse datetime = None) walk.
Proof. apply filelistings_from_fails. Qed.

(** ** Return classifier: windows and the cache *)

Section ClassifierFacts.

Variable BDay_add : Timestamp -> Z -> Timestamp.
Variable DatetimeIndex_B : Timestamp -> nat -> list Timestamp.
Variable Equity : Type.
Variable Equity_of : string -> Equity.
Variable historical_Close : Equity -> Timestamp -> pyfloat.

Let classify' := classify BDay_add DatetimeIndex_B Equity Equity_of
                          historical_Close.
Let window (EQUITIES : gmap string Equity) (symbol : string)
    (timestamp : Timestamp) (timespan : nat) (adjust_delay : Z) :=
  close_prices BDay_add DatetimeIndex_B Equity historical_Close
    (fst (lookup_equity Equity Equity_of EQUITIES symbol))
    timestamp timespan adjust_delay.

Lemma classify_label (EQUITIES : gmap string Equity) (symbol : string)
    (timestamp : Timestamp) (timespan num_class : nat) (adjust_delay : Z)
    (limit : pyfloat) :
  Nat.eqb num_class 2 || Nat.eqb num_class 3 = true ->
  classify' EQUITIES symbol timestamp timespan num_class adjust_delay limit
    = (cum ← cum_returns (window EQUITIES symbol timestamp timespan adjust_delay);
       sentiment num_class cum limit,
       snd (lookup_equity Equity Equity_of EQUITIES symbol)).
Proof.
  intro H. unfold classify', classify, window. rewrite H.
  destruct (lookup_equity _ _ _ _). reflexivity.
Qed.

(** X19. A window without closes makes [classify] raise [IndexError]; a
    window of a single close has no return, and is labelled neutral with
    three classes and positive with two, whatever the close and the
    limit. *)
Theorem classify_short_window (EQUITIES : gmap string Equity)
    (symbol : string) (timestamp : Timestamp) (timespan : nat)
    (adjust_delay : Z) (limit : pyfloat) :
  (window EQUITIES symbol timestamp timespan adjust_delay = [] ->
   fst (classify' EQUITIES symbol timestamp timespan 3 adjust_delay limit)
     = Raise IndexError /\
   fst (classify' EQUITIES symbol timestamp timespan 2 adjust_delay limit)
     = Raise IndexError) /\
  (forall p : pyfloat,
     window EQUITIES symbol timestamp timespan adjust_delay = [p] ->
     fst (classify' EQUITIES symbol timestamp timespan 3 adjust_delay limit)
       = Return neut_label /\
     fst (classify' EQUITIES symbol timestamp timespan 2 adjust_delay limit)
       = Return pos_label).
Proof.
  split.
  - intro Hwin. rewrite !classify_label by reflexivity. cbn [fst].
    rewrite Hwin. split; reflexivity.
  - intros p Hwin. rewrite !classify_label by reflexivity. cbn [fst].
    rewrite Hwin.
    assert (Hcum : cum_returns [p] = Return NaN).
    { unfold cum_returns, pct_change, cumprod. simpl.
      destruct (isnan p); destruct p; reflexivity. }
    rewrite Hcum. destruct limit; split; reflexivity.
Qed.

(** X20. [classify] with two or three classes leaves the symbol in the
    cache and every other entry of the cache as it was; a symbol that is
    cached is not fetched again, so the result does not depend on
    [Equity(symbol)] then, and a second call returns the same label and
    leaves the cache unchanged. *)
Theorem classify_cache (EQUITIES : gmap string Equity) (symbol : string)
    (timestamp : Timestamp) (timespan num_class : nat) (adjust_delay : Z)
    (limit : pyfloat) :
  Nat.eqb num_class 2 || Nat.eqb num_class 3 = true ->
  let result :=
    classify' EQUITIES symbol timestamp timespan num_class adjust_delay limit in
  is_Some (snd result !! symbol) /\
  (forall other : string,
     other <> symbol -> snd result !! other = EQUITIES !! other) /\
  (forall equity : Equity,
     EQUITIES !! symbol = Some equity ->
     forall Equity_of' : string -> Equity,
       classify BDay_add DatetimeIndex_B Equity Equity_of' historical_Close
                EQUITIES symbol timestamp timespan num_class adjust_delay limit
         = result) /\
  classify' (snd result) symbol timestamp timespan num_class adjust_delay limit
    = result.
Proof.
  intros Hn result. subst result.
  rewrite classify_label by exact Hn. cbn [fst snd].
  split; [|split; [|split]].
  - unfold lookup_equity. destruct (EQUITIES !! symbol) eqn:E; simpl.
    + rewrite E. eauto.
    + rewrite lookup_insert_eq. eauto.
  - intros other Hother. unfold lookup_equity.
    destruct (EQUITIES !! symbol); simpl; [reflexivity|].
    apply lookup_insert_ne. congruence.
  - intros equity Hcached Equity_of'.
    unfold classify. rewrite Hn. unfold window, lookup_equity.
    rewrite Hcached. reflexivity.
  - rewrite classify_label by exact Hn. unfold window, lookup_equity.
    destruct (EQUITIES !! symbol) eqn:E; simpl.
    + rewrite E. reflexivity.
    + rewrite lookup_insert_eq. reflexivity.
Qed.

End ClassifierFacts.

Lemma classify_short_window_witness :
  fst (classify (fun t _ => t) sample_index unit (fun _ => tt) sample_close
                ∅ "ABC" (MkTimestamp 2013 1 15) 0 3 (-4) (Fin 0.05))
    = Raise IndexError /\
  fst (classify (fun t _ => t) sample_index unit (fun _ => tt) sample_close
                ∅ "ABC" (MkTimestamp 2013 1 15) 0 2 (-4) (Fin 0.05))
    = Raise IndexError.
Proof.
  apply (proj1 (classify_short_window (fun t _ => t) sample_index unit
                  (fun _ => tt) sample_close ∅ "ABC" (MkTimestamp 2013 1 15)
                  0 (-4) (Fin 0.05))).
  reflexivity.
Defined.

Lemma classify_cache_witness :
  is_Some (snd (classify (fun t _ => t) sample_index unit (fun _ => tt)
                         sample_close ∅ "ABC" (MkTimestamp 2013 1 15) 3 3
                         (-4) (Fin 0.05)) !! "ABC").
Proof.
  apply (classify_cache (fun t _ => t) sample_index unit (fun _ => tt)
           sample_close ∅ "ABC" (MkTimestamp 2013 1 15) 3 3 (-4) (Fin 0.05)).
  reflexivity.
Defined.

(** ** Orchestrator: what a run does to the corpus *)

Lemma sentiment_three_labels (cum limit : pyfloat) (label : string) :
  sentiment 3 cum limit = Return label ->
  In label [neg_label; pos_label; neut_label].
Proof.
  unfold sentiment. simpl Nat.eqb. cbv iota.
  destruct (Float.lt cum _); [|destruct (Float.gt cum limit)];
    intro H; injection H as <-; simpl; tauto.
Qed.


Section OrchestratorFacts.

Variable home : string.
Variable markup_body : string -> option string.
Variable killgremlins : string -> string.
Variable BDay_add : Timestamp -> Z -> Timestamp.
Variable DatetimeIndex_B : Timestamp -> nat -> list Timestamp.
Variable Equity : Type.
Variable Equity_of : string -> Equity.
Variable historical_Close : Equity -> Timestamp -> pyfloat.

Let step := parse_filing home markup_body killgremlins BDay_add
                         DatetimeIndex_B Equity Equity_of historical_Close.
Let run_all := parser_dir home markup_body killgremlins BDay_add
                          DatetimeIndex_B Equity Equity_of historical_Close.

(** X21. A step of [parser_dir] changes at most one file, the entry of its
    filing under one of the three labels, which it writes with a non-empty
    text; it never deletes a file and never touches another one. *)
Theorem parse_filing_frame (fs fs' : filesystem)
    (EQUITIES EQUITIES' : gmap string Equity)
    (symbol : string) (timestamp : Timestamp) (filepath : string) :
  step (fs, EQUITIES) (symbol, timestamp, filepath) = Return (fs', EQUITIES') ->
  files fs' = files fs \/
  exists label text : string,
    In label [neg_label; pos_label; neut_label] /\ text <> "" /\
    files fs' = <[entry_path home label symbol timestamp := text]> (files fs).
Proof.
  unfold step, parse_filing.
  destruct (is_parsed home fs _); [intro H; injection H as <- _; tauto|].
  destruct (read_file fs filepath) as [lines|e]; [|discriminate].
  cbn [mbind result_bind].
  destruct (negb _ && _); [|intro H; injection H as <- _; tauto].
  destruct (clean_text _ DEFAULT_TRIM_LIMIT) as [clean_er|e] eqn:Hclean;
    [|discriminate].
  cbn [mbind result_bind].
  destruct (classify _ _ _ _ _ _ _ _ _ _ _ _) as [er_class cache] eqn:Hclass.
  destruct er_class as [label|e]; [|discriminate].
  cbn [mbind result_bind]. intro H. injection H as <- _.
  right. exists label, clean_er.
  assert (Hne : clean_er <> "").
  { exact (clean_text_output_nonempty _ DEFAULT_TRIM_LIMIT _ eq_refl Hclean). }
  split; [|split; [exact Hne|]].
  - unfold classify in Hclass. simpl in Hclass.
    destruct (lookup_equity _ _ _ _) as [equity cache'].
    injection Hclass as Hlabel _.
    destruct (cum_returns _) as [cum|e]; [|discriminate Hlabel].
    exact (sentiment_three_labels _ _ _ Hlabel).
  - destruct clean_er; [contradiction|].
    unfold write_file, mkdir.
    destruct (bool_decide _); reflexivity.
Qed.

Lemma parser_dir_cons (wd : world Equity) (f : filing) (filings : list filing) :
  run_all wd (f :: filings) = (wd' ← step wd f; run_all wd' filings).
Proof. reflexivity. Qed.

(** X22. A run over filings that all have their entry under [neg] or
    [pos] returns the corpus and the cache as they were: nothing is read,
    classified or written. *)
Theorem parser_dir_all_parsed (fs : filesystem)
    (EQUITIES : gmap string Equity) (filings : list filing) :
  Forall (fun f : filing =>
            is_parsed home fs (get_parsed_filename (fst (fst f)) (snd (fst f)))
              = true) filings ->
  run_all (fs, EQUITIES) filings = Return (fs, EQUITIES).
Proof.
  induction 1 as [|[[symbol timestamp] filepath] filings Hf _ IH];
    [reflexivity|].
  rewrite parser_dir_cons. unfold step.
  simpl in Hf. rewrite (parse_filing_skips _ _ _ _ _ _ _ _ _ _ _ _ _ Hf).
  exact IH.
Qed.


End OrchestratorFacts.

Lemma parse_filing_frame_witness :
  files (fst sample_after) = files sample_fs \/
  exists label text : string,
    In label [neg_label; pos_label; neut_label] /\ text <> "" /\
    files (fst sample_after)
      = <[entry_path sample_home label "ABC" (MkTimestamp 2013 1 15) := text]>
          (files sample_fs).
Proof.
  apply (parse_filing_frame sample_home
           (fun _ => Some "Acme sales rose in the third quarter.")
           (fun text => text) (fun timestamp _ => timestamp)
           (fun timestamp periods => repeat timestamp periods)
           unit (fun _ => tt) (fun _ _ => Fin 100)
           sample_fs (fst sample_after) ∅ (snd sample_after)
           "ABC" (MkTimestamp 2013 1 15)
           "/home/user/sec_edgar/data/ABC-2013-01-15-8-K.txt").
  vm_compute. reflexivity.
Defined.

Lemma parser_dir_all_parsed_witness :
  parser_dir sample_home
    (fun _ => Some "Acme sales rose in the third quarter.")
    (fun text => text) (fun timestamp _ => timestamp)
    (fun timestamp periods => repeat timestamp periods)
    unit (fun _ => tt) (fun _ _ => Fin 100)
    (parsed_fs, ∅) [sample_filing]
    = Return (parsed_fs, ∅).
Proof.
  apply parser_dir_all_parsed. repeat constructor.
Defined.


(** ** Character repair *)

Module GremlinFacts.

Import Gremlins.
Local Open Scope N_scope.

Lemma gremlin_listed (c : N) : gremlin c = true -> In c gremlins.
Proof.
  unfold gremlin, gremlins. intro H.
  apply andb_prop in H. destruct H as [Hlo Hhi].
  apply N.leb_le in Hlo, Hhi.
  rewrite <- (N2Nat.id c). apply in_map. apply in_seq. lia.
Qed.

Lemma for_gremlins (P : N -> bool) :
  forallb P gremlins = true -> forall c, gremlin c = true -> P c = true.
Proof.
  intros Hall c Hc. rewrite forallb_forall in Hall.
  apply Hall. apply gremlin_listed. exact Hc.
Qed.

Lemma c1_is_gremlin (c : N) : c1_control c = true -> gremlin c = true.
Proof.
  unfold c1_control, gremlin. intro H.
  apply andb_prop in H. destruct H as [Hlo Hhi].
  apply N.leb_le in Hlo, Hhi.
  apply andb_true_intro. split; apply N.leb_le; lia.
Qed.

(** The table is the identity from 0xa0 on. *)
Lemma table_identity (c : N) :
  gremlin c = true -> c1_control c = false -> cp1252_get c = c.
Proof.
  intros Hg Hc1.
  pose proof (for_gremlins
                (fun c => c1_control c || N.eqb (cp1252_get c) c)
                eq_refl c Hg) as H.
  simpl in H. rewrite Hc1 in H. apply N.eqb_eq. exact H.
Qed.

(** The table sends no character to a C1 control. *)
Lemma table_leaves_c1 (c : N) :
  gremlin c = true -> c1_control (cp1252_get c) = false.
Proof.
  intro Hg.
  pose proof (for_gremlins (fun c => negb (c1_control (cp1252_get c)))
                eq_refl c Hg) as H.
  apply negb_true_iff. exact H.
Qed.

Lemma fixup_repair (c : N) :
  (if gremlin c then cp1252_get c else c) = repair c.
Proof.
  unfold repair.
  destruct (gremlin c) eqn:Hg, (c1_control c) eqn:Hc1; try reflexivity.
  - apply table_identity; assumption.
  - rewrite (c1_is_gremlin c Hc1) in Hg. discriminate Hg.
Qed.

Lemma killgremlins_map (text : list N) :
  killgremlins text = map repair text.
Proof.
  unfold killgremlins, sub_gremlins.
  destruct (existsb gremlin text) eqn:Hany.
  - apply map_ext. exact fixup_repair.
  - induction text as [|c text IH]; [reflexivity|].
    simpl in Hany. apply orb_false_elim in Hany. destruct Hany as [Hc Hrest].
    simpl. rewrite <- (IH Hrest). f_equal.
    rewrite <- fixup_repair, Hc. reflexivity.
Qed.

Lemma repair_leaves_c1 (c : N) : c1_control (repair c) = false.
Proof.
  unfold repair. destruct (c1_control c) eqn:Hc1; [|exact Hc1].
  apply table_leaves_c1. apply c1_is_gremlin. exact Hc1.
Qed.

(** X24. [killgremlins] repairs in place: the text keeps its length, a
    character outside 0x80..0x9f is left as it is (the table is the
    identity from 0xa0 on), and a character in that range is replaced by
    its entry of the table. *)
Theorem killgremlins_in_place (text : list N) :
  length (killgremlins text) = length text /\
  forall (i : nat) (c : N),
    nth_error text i = Some c ->
    nth_error (killgremlins text) i
      = Some (if c1_control c then cp1252_get c else c).
Proof.
  rewrite killgremlins_map. split.
  - apply length_map.
  - intros i c H. rewrite nth_error_map, H. reflexivity.
Qed.

(** X25. The text [killgremlins] returns holds no character of the range
    0x80..0x9f, and repairing it again changes nothing. *)
Theorem killgremlins_idempotent (text : list N) :
  Forall (fun c => c1_control c = false) (killgremlins text) /\
  killgremlins (killgremlins text) = killgremlins text.
Proof.
  rewrite !killgremlins_map. split.
  - induction text as [|c text IH]; simpl; constructor;
      [apply repair_leaves_c1|exact IH].
  - rewrite map_map. apply map_ext. intro c.
    unfold repair at 1. rewrite repair_leaves_c1. reflexivity.
Qed.

End GremlinFacts.

(** ** Corpus entry names *)

Lemma forall_chars_impl (f g : ascii -> bool) (s : string) :
  (forall c, f c = true -> g c = true) ->
  Str.forall_chars f s = true -> Str.forall_chars g s = true.
Proof.
  intro Hfg. induction s as [|c s IH]; [reflexivity|].
  cbn [Str.forall_chars]. intro H. apply andb_prop in H. destruct H as [Hc Hs].
  rewrite (Hfg c Hc), (IH Hs). reflexivity.
Qed.

Lemma forall_chars_app (f : ascii -> bool) (a b : string) :
  Str.forall_chars f a = true -> Str.forall_chars f b = true ->
  Str.forall_chars f (a ++ b) = true.
Proof.
  intros Ha Hb. induction a as [|c a IH]; [exact Hb|].
  cbn [Str.forall_chars] in Ha. apply andb_prop in Ha. destruct Ha as [Hc Ha].
  change (f c && Str.forall_chars f (a ++ b) = true).
  rewrite Hc, (IH Ha). reflexivity.
Qed.

(** A text is cut at the first occurrence of a separator in one way only. *)
Lemma split_at (sep : ascii) (a c b d : string) :
  Str.forall_chars (other_than sep) a = true ->
  Str.forall_chars (other_than sep) c = true ->
  (a ++ String sep b)%string = (c ++ String sep d)%string ->
  a = c /\ b = d.
Proof.
  revert c. induction a as [|x a IH]; intros [|y c] Ha Hc H.
  - injection H as ->. split; reflexivity.
  - injection H as Hy _. subst y. cbn [Str.forall_chars] in Hc.
    unfold other_than at 1 in Hc. rewrite Ascii.eqb_refl in Hc.
    discriminate Hc.
  - injection H as Hx _. subst x. cbn [Str.forall_chars] in Ha.
    unfold other_than at 1 in Ha. rewrite Ascii.eqb_refl in Ha.
    discriminate Ha.
  - injection H as Hxy H. subst y.
    cbn [Str.forall_chars] in Ha, Hc.
    apply andb_prop in Ha, Hc. destruct Ha as [_ Ha], Hc as [_ Hc].
    destruct (IH c Ha Hc H) as [-> ->]. split; reflexivity.
Qed.

Lemma digit_other_than (sep c : ascii) :
  Str.is_digit sep = false -> Str.is_digit c = true -> other_than sep c = true.
Proof.
  intros Hsep Hc. unfold other_than.
  destruct (Ascii.eqb_spec c sep) as [->|_]; [|reflexivity].
  rewrite Hsep in Hc. discriminate Hc.
Qed.

Lemma word_other_than (sep c : ascii) :
  Str.is_word sep = false -> Str.is_word c = true -> other_than sep c = true.
Proof.
  intros Hsep Hc. unfold other_than.
  destruct (Ascii.eqb_spec c sep) as [->|_]; [|reflexivity].
  rewrite Hsep in Hc. discriminate Hc.
Qed.

Lemma zeros_digits (n : nat) : Str.forall_chars Str.is_digit (zeros n) = true.
Proof. induction n as [|n IH]; [reflexivity|exact IH]. Qed.

Lemma decimal_digits (n : nat) : Str.forall_chars Str.is_digit (decimal n) = true.
Proof.
  unfold decimal, NilZero.string_of_uint.
  assert (H : forall d, Str.forall_chars Str.is_digit
                          (NilEmpty.string_of_uint d) = true).
  { induction d as [|d IH|d IH|d IH|d IH|d IH|d IH|d IH|d IH|d IH|d IH];
      [reflexivity|exact IH..]. }
  destruct (Nat.to_uint n); [reflexivity|apply H..].
Qed.

Lemma zero_padded_digits (width n : nat) :
  Str.forall_chars Str.is_digit (zero_padded width n) = true.
Proof.
  unfold zero_padded. apply forall_chars_app;
    [apply zeros_digits|apply decimal_digits].
Qed.

Lemma digits_value_zeros (k : nat) (s : string) :
  digits_value (zeros k ++ s) = digits_value s.
Proof.
  induction k as [|k IH]; [reflexivity|].
  rewrite <- IH. unfold digits_value.
  change (zeros (S k) ++ s)%string with (String "0" (zeros k ++ s)).
  cbn [NilEmpty.uint_of_string].
  destruct (NilEmpty.uint_of_string (zeros k ++ s)); reflexivity.
Qed.

Lemma digits_value_decimal (n : nat) : digits_value (decimal n) = Some n.
Proof.
  unfold digits_value, decimal.
  assert (H : forall d,
             option_map Nat.of_uint
               (NilEmpty.uint_of_string (NilZero.string_of_uint d))
             = Some (Nat.of_uint d)).
  { intro d. unfold NilZero.string_of_uint.
    destruct d; [reflexivity|cbv beta iota; rewrite NilEmpty.usu; reflexivity..]. }
  rewrite H, Unsigned.of_to. reflexivity.
Qed.

(** Padding with zeros loses nothing of the number. *)
Lemma zero_padded_value (width n : nat) :
  digits_value (zero_padded width n) = Some n.
Proof.
  unfold zero_padded. rewrite digits_value_zeros. apply digits_value_decimal.
Qed.

Lemma zero_padded_inj (width n m : nat) :
  zero_padded width n = zero_padded width m -> n = m.
Proof.
  intro H. apply (f_equal digits_value) in H.
  rewrite !zero_padded_value in H. injection H as H. exact H.
Qed.

Lemma zero_padded_other_than (sep : ascii) (width n : nat) :
  Str.is_digit sep = false ->
  Str.forall_chars (other_than sep) (zero_padded width n) = true.
Proof.
  intro Hsep.
  apply (forall_chars_impl Str.is_digit); [|apply zero_padded_digits].
  intro c. apply digit_other_than. exact Hsep.
Qed.

Lemma filename_shape (symbol : string) (t : Timestamp) :
  get_parsed_filename symbol t
  = (symbol ++ String "-" (zero_padded 4 (year t) ++ String "-"
       (zero_padded 2 (month t) ++ String "-"
          (zero_padded 2 (day t) ++ String "." "txt"))))%string.
Proof.
  unfold get_parsed_filename, strftime_Ymd.
  rewrite !append_assoc. reflexivity.
Qed.

(** X26. Corpus entries are named apart: two filings whose symbols are runs
    of word characters, as discovery delivers them, get the same entry
    name only if they have the same symbol and the same date.  So the
    [is_parsed] test of one filing is never answered by the entry of
    another, and no entry is overwritten by a filing of another symbol or
    day. *)
Theorem get_parsed_filename_injective (symbol1 symbol2 : string)
    (timestamp1 timestamp2 : Timestamp) :
  Str.forall_chars Str.is_word symbol1 = true ->
  Str.forall_chars Str.is_word symbol2 = true ->
  get_parsed_filename symbol1 timestamp1 = get_parsed_filename symbol2 timestamp2 ->
  symbol1 = symbol2 /\ timestamp1 = timestamp2.
Proof.
  intros H1 H2 H. rewrite !filename_shape in H.
  apply split_at in H;
    [|apply (forall_chars_impl Str.is_word); [intro c; apply word_other_than|];
      (reflexivity || assumption)..].
  destruct H as [Hsymbol H].
  apply split_at in H; [|apply zero_padded_other_than; reflexivity..].
  destruct H as [Hyear H].
  apply split_at in H; [|apply zero_padded_other_than; reflexivity..].
  destruct H as [Hmonth H].
  apply split_at in H; [|apply zero_padded_other_than; reflexivity..].
  destruct H as [Hday _].
  apply zero_padded_inj in Hyear, Hmonth, Hday.
  split; [exact Hsymbol|].
  destruct timestamp1, timestamp2. simpl in Hyear, Hmonth, Hday.
  subst. reflexivity.
Qed.

Lemma get_parsed_filename_injective_witness :
  "ABC" = "ABC" /\ MkTimestamp 2013 1 15 = MkTimestamp 2013 1 15.
Proof.
  apply get_parsed_filename_injective; reflexivity.
Defined.
